(** * Arsenic: photo resolution, extraction and reconciliation

    A shallow embedding of the photo pipeline of
    [src/parser/backup_parser.py]: the content-address of a camera-roll
    file ([calculate_itunes_photofile_name]), the scene filter, the
    batch extraction routine ([retrieve_photos_from_backup]), the
    fallback blocks of [parse_backup] and the reconciliation of the
    photo folder with the request.

    Conventions.
    - A Python [str] that is hashed is a list of Unicode code points
      ([pystr]); names that are only compared (file names, file IDs,
      labels) are [string]s.
    - A Python call that may raise returns [PyExc + A]; the constructors
      of [PyExc] are subclasses of Python's [Exception].
    - A pandas frame is the list of its rows, in order.
    - 32-bit words are [Z] with the wrap-around written out. *)

From Stdlib Require Import ZArith Lia List String Ascii.
From stdpp Require Import base gmap strings list pretty.

Local Open Scope Z_scope.

(** ** Python exceptions and results *)

(** The exception classes the pipeline meets.  All of them derive from
    [Exception]; [IOError] is Python 3's alias of [OSError]. *)
Inductive PyExc : Type :=
  | MissingEntryError
  | IOError
  | UnicodeEncodeError
  | TypeError
  | AttributeError
  | NameError
  | OtherError (msg : string).

Definition result (A : Type) : Type := (PyExc + A)%type.

Definition is_MissingEntryError (e : PyExc) : bool :=
  match e with MissingEntryError => true | _ => false end.

(** ** hashlib.sha1 *)

Module Sha1.

Definition w32 (x : Z) : Z := x mod 2 ^ 32.

Definition add32 (a b : Z) : Z := w32 (a + b).

Definition rotl (n x : Z) : Z :=
  w32 (Z.lor (Z.shiftl x n) (Z.shiftr x (32 - n))).

Definition not32 (x : Z) : Z := Z.lxor x 4294967295.

(** Big-endian bytes of [x], [n] of them. *)
Fixpoint be_bytes (n : nat) (x : Z) : list Z :=
  match n with
  | O => []
  | S n' => (Z.shiftr x (8 * Z.of_nat n')) mod 256 :: be_bytes n' x
  end.

Definition be_word (bs : list Z) : Z :=
  fold_left (fun acc b => Z.lor (Z.shiftl acc 8) b) bs 0.

(** The message, a [1] bit, zeros up to 56 modulo 64, and the bit
    length on eight bytes. *)
Definition pad (msg : list Z) : list Z :=
  let len := Z.of_nat (length msg) in
  let k := Z.to_nat ((55 - len) mod 64) in
  msg ++ 128 :: repeat 0 k ++ be_bytes 8 (8 * len).

Fixpoint words (n : nat) (bs : list Z) : list Z :=
  match n with
  | O => []
  | S n' => be_word (take 4 bs) :: words n' (drop 4 bs)
  end.

Fixpoint blocks (n : nat) (bs : list Z) : list (list Z) :=
  match n with
  | O => []
  | S n' => words 16 (take 64 bs) :: blocks n' (drop 64 bs)
  end.

(** The schedule is kept newest first: [rev_w] holds w[t-1], w[t-2], ... *)
Fixpoint extend (n : nat) (rev_w : list Z) : list Z :=
  match n with
  | O => rev_w
  | S n' =>
      let x := Z.lxor (Z.lxor (nth 2 rev_w 0) (nth 7 rev_w 0))
                      (Z.lxor (nth 13 rev_w 0) (nth 15 rev_w 0)) in
      extend n' (rotl 1 x :: rev_w)
  end.

Definition schedule (block : list Z) : list Z :=
  rev (extend 64 (rev block)).

Record state : Type :=
  State { h0 : Z; h1 : Z; h2 : Z; h3 : Z; h4 : Z }.

Definition init : state :=
  State 1732584193 4023233417 2562383102 271733878 3285377520.

Definition f (t : nat) (b c d : Z) : Z :=
  if (t <? 20)%nat then Z.lor (Z.land b c) (Z.land (not32 b) d)
  else if (t <? 40)%nat then Z.lxor (Z.lxor b c) d
  else if (t <? 60)%nat then
    Z.lor (Z.lor (Z.land b c) (Z.land b d)) (Z.land c d)
  else Z.lxor (Z.lxor b c) d.

Definition K (t : nat) : Z :=
  if (t <? 20)%nat then 1518500249
  else if (t <? 40)%nat then 1859775393
  else if (t <? 60)%nat then 2400959708
  else 3395469782.

Definition round (t : nat) (wt : Z) (s : state) : state :=
  let '(State a b c d e) := s in
  let temp := add32 (add32 (add32 (add32 (rotl 5 a) (f t b c d)) e) (K t)) wt in
  State temp a (rotl 30 b) c d.

Fixpoint rounds (t : nat) (ws : list Z) (s : state) : state :=
  match ws with
  | [] => s
  | wt :: ws' => rounds (S t) ws' (round t wt s)
  end.

Definition compress (s : state) (block : list Z) : state :=
  let '(State a b c d e) := rounds 0 (schedule block) s in
  State (add32 (h0 s) a) (add32 (h1 s) b) (add32 (h2 s) c)
        (add32 (h3 s) d) (add32 (h4 s) e).

Definition digest_state (msg : list Z) : state :=
  let p := pad msg in
  fold_left compress (blocks (length p / 64) p) init.

(** The twenty bytes of the digest. *)
Definition digest (msg : list Z) : list Z :=
  let '(State a b c d e) := digest_state msg in
  be_bytes 4 a ++ be_bytes 4 b ++ be_bytes 4 c ++ be_bytes 4 d ++ be_bytes 4 e.

Definition hex_digit (n : Z) : ascii :=
  match n with
  | 0 => "0" | 1 => "1" | 2 => "2" | 3 => "3" | 4 => "4"
  | 5 => "5" | 6 => "6" | 7 => "7" | 8 => "8" | 9 => "9"
  | 10 => "a" | 11 => "b" | 12 => "c" | 13 => "d" | 14 => "e"
  | _ => "f"
  end%char.

Fixpoint hex (bs : list Z) : string :=
  match bs with
  | [] => EmptyString
  | b :: bs' =>
      String (hex_digit (b / 16)) (String (hex_digit (b mod 16)) (hex bs'))
  end.

(** [sha1(data).hexdigest()] *)
Definition hexdigest (msg : list Z) : string := hex (digest msg).

End Sha1.

(** ** str.encode(encoding='UTF-8', errors='strict') *)

Definition pystr : Type := list Z.

Definition pystr_of_string (s : string) : pystr :=
  map (fun a => Z.of_N (N_of_ascii a)) (list_ascii_of_string s).

Definition utf8_char (c : Z) : option (list Z) :=
  if c <? 0 then None
  else if c <? 128 then Some [c]
  else if c <? 2048 then
    Some [Z.lor 192 (Z.shiftr c 6); Z.lor 128 (Z.land c 63)]
  else if (55296 <=? c) && (c <=? 57343) then None
  else if c <? 65536 then
    Some [Z.lor 224 (Z.shiftr c 12);
          Z.lor 128 (Z.land (Z.shiftr c 6) 63);
          Z.lor 128 (Z.land c 63)]
  else if c <=? 1114111 then
    Some [Z.lor 240 (Z.shiftr c 18);
          Z.lor 128 (Z.land (Z.shiftr c 12) 63);
          Z.lor 128 (Z.land (Z.shiftr c 6) 63);
          Z.lor 128 (Z.land c 63)]
  else None.

Fixpoint utf8_encode (s : pystr) : option (list Z) :=
  match s with
  | [] => Some []
  | c :: s' =>
      match utf8_char c, utf8_encode s' with
      | Some bs, Some rest => Some (bs ++ rest)
      | _, _ => None
      end
  end.

Definition encode_strict (s : pystr) : result (list Z) :=
  match utf8_encode s with
  | Some bs => inr bs
  | None => inl UnicodeEncodeError
  end.

(** ** calculate_itunes_photofile_name *)

Definition camera_roll_prefix : pystr := pystr_of_string "CameraRollDomain-Media/".

Definition calculate_itunes_photofile_name (filepathinbackup : pystr) : result string :=
  let builtpath := camera_roll_prefix ++ filepathinbackup in
  match encode_strict builtpath with
  | inl e => inl e
  | inr builtpath => inr (Sha1.hexdigest builtpath)
  end.

(** ** The photo catalog

    [photo_taxonomy] returns one row per scene classification of an
    asset.  [replace_taxonomy_id_w_descr] has replaced the identifiers
    it knows by their label and left the others as numbers;
    [format_as_percentage] followed by [pd.to_numeric(errors='coerce')]
    leaves in [Confidence] an integer percentage, or NaN ([None]) where
    the text was not numeric. *)

Inductive Scene : Type :=
  | SceneLabel (label : string)
  | SceneId (id : Z).

(** A cell read from the database or set by a caller: Python objects
    as far as hashing and joining tell them apart. *)
Inductive PyVal : Type :=
  | PStr (s : string)
  | PNone
  | PInt (z : Z)
  | PUnhashable.

Record Row : Type := {
  Scene_Classification : Scene;
  Confidence : option Z;
  Path : PyVal;
  Filename : PyVal;
  Date_Created : string;
  Date_Added : string;
}.

Definition DataFrame : Type := list Row.

#[global] Instance PyVal_eq_dec : EqDecision PyVal.
Proof. solve_decision. Defined.

#[global] Instance Scene_eq_dec : EqDecision Scene.
Proof. solve_decision. Defined.

#[global] Instance Row_eq_dec : EqDecision Row.
Proof. solve_decision. Defined.

(** [taxonomyquery['Scene Classification'] == taxonomy_target]: a
    number never equals a [str]. *)
Definition scene_eq (s : Scene) (taxonomy_target : string) : bool :=
  match s with
  | SceneLabel l => bool_decide (l = taxonomy_target)
  | SceneId _ => false
  end.

(** [taxonomyquery['Confidence'] > 5]: a comparison with NaN is false. *)
Definition confidence_gt (c : option Z) (threshold : Z) : bool :=
  match c with
  | Some z => threshold <? z
  | None => false
  end.

Definition selected (taxonomy_target : string) (r : Row) : bool :=
  scene_eq (Scene_Classification r) taxonomy_target
  && confidence_gt (Confidence r) 5.

(** [filtered_df = taxonomyquery[(...) & (...)]] *)
Definition filter_taxonomy (taxonomyquery : DataFrame) (taxonomy_target : string)
  : DataFrame :=
  List.filter (selected taxonomy_target) taxonomyquery.

(** ** Effects

    The pipeline talks to the backup reader (pyiosbackup), to the file
    system and to the status callback of its caller.  A computation
    threads the state [W] of that outside world and returns the calls
    it made, in order. *)

Inductive Event : Type :=
  | EvFromPath (backup_path password : string) (opened : bool)
  | EvExtract (ID path : string) (outcome : result unit)
  | EvStatus (msg : string)
  | EvExists (path : string) (present : bool)
  | EvListdir (path : string) (entries : list string)
  | EvWrite (path text : string) (outcome : result unit)
  | EvToCsv (path : string) (frame : list (Row * string)) (outcome : result unit).

Definition M (W A : Type) : Type := W → A * W * list Event.

#[global] Instance M_ret {W} : MRet (M W) := λ A (a : A) w, (a, w, []).

#[global] Instance M_bind {W} : MBind (M W) := λ A B (k : A → M W B) (m : M W A) w,
  let '(a, w1, l1) := m w in
  let '(b, w2, l2) := k a w1 in
  (b, w2, l1 ++ l2).

Definition emit {W} (e : Event) : M W unit := λ w, (tt, w, [e]).

Definition events {W A} (x : A * W * list Event) : list Event := x.2.
Definition value {W A} (x : A * W * list Event) : A := x.1.1.
Definition world {W A} (x : A * W * list Event) : W := x.1.2.

(** pyiosbackup: [Backup.from_path] and [Backup.extract_file_id]. *)
Class BackupLib (W : Type) : Type := {
  Backup : Type;
  Backup_from_path : string → string → W → result Backup * W;
  Backup_extract_file_id : Backup → string → string → W → result unit * W;
}.

(** [os.path.exists] and [os.listdir]; reading leaves the world as it is. *)
Class OsLib (W : Type) : Type := {
  os_path_exists : string → W → bool;
  os_listdir : string → W → list string;
}.

(** Writing a report: [open(path, 'w')] with the text written to the
    file, and [DataFrame.to_csv(path, mode='a', index=False)].  Both
    change the file system, and raise when it refuses. *)
Class ReportLib (W : Type) : Type := {
  write_text : string → string → W → result unit * W;
  frame_to_csv : string → list (Row * string) → W → result unit * W;
}.

(** [convert_timezone(timestamp_str, target_timezone)] reads the zone
    tables of pytz and tzlocal; it catches what it meets and returns a
    text for every text. *)
Class TimezoneLib : Type := {
  convert_timezone : string → string → string;
}.

Section Calls.
Context {W : Type}.

Definition from_path {lib : BackupLib W} (backup_path password : string)
  : M W (result Backup) := λ w,
  let '(r, w') := Backup_from_path backup_path password w in
  (r, w', [EvFromPath backup_path password (match r with inr _ => true | inl _ => false end)]).

Definition extract_file_id {lib : BackupLib W} (backup : Backup) (ID path : string)
  : M W (result unit) := λ w,
  let '(r, w') := Backup_extract_file_id backup ID path w in
  (r, w', [EvExtract ID path r]).

Definition path_exists {os : OsLib W} (path : string) : M W bool := λ w,
  let b := os_path_exists path w in (b, w, [EvExists path b]).

Definition listdir {os : OsLib W} (path : string) : M W (list string) := λ w,
  let l := os_listdir path w in (l, w, [EvListdir path l]).

Definition write {report : ReportLib W} (path text : string)
  : M W (result unit) := λ w,
  let '(r, w') := write_text path text w in (r, w', [EvWrite path text r]).

Definition to_csv {report : ReportLib W} (path : string)
    (frame : list (Row * string)) : M W (result unit) := λ w,
  let '(r, w') := frame_to_csv path frame w in (r, w', [EvToCsv path frame r]).

(** [if status_callback: status_callback(msg)] *)
Definition status (status_callback : bool) (msg : string) : M W unit :=
  if status_callback then emit (EvStatus msg) else mret tt.

(** A statement that raised ends the statements that follow it. *)
Definition and_then {A B : Type} (m : M W (result A))
    (k : A → M W (result B)) : M W (result B) :=
  r ← m;
  match r with
  | inl e => mret (inl e)
  | inr a => k a
  end.
End Calls.

(** ** parse_ios_backup.retrieve_photos_from_backup

    The [print] calls of the routine are left out. *)

Module parse_ios_backup.

Record counters : Type := {
  extracted_count : Z;
  failed_ids : list string;
  missing_entry_count : Z;
}.

Definition start : counters :=
  {| extracted_count := 0; failed_ids := []; missing_entry_count := 0 |}.

(** One turn of [for ID in list_of_fileIDs], after the call returned
    or raised. *)
Definition record_outcome (ID : string) (r : result unit) (c : counters)
  : counters :=
  match r with
  | inr _ =>
      {| extracted_count := extracted_count c + 1;
         failed_ids := failed_ids c;
         missing_entry_count := missing_entry_count c |}
  | inl MissingEntryError =>
      {| extracted_count := extracted_count c;
         failed_ids := failed_ids c ++ [ID];
         missing_entry_count := missing_entry_count c + 1 |}
  | inl _ =>
      {| extracted_count := extracted_count c;
         failed_ids := failed_ids c ++ [ID];
         missing_entry_count := missing_entry_count c |}
  end.

Section Retrieve.
Context {W : Type} {lib : BackupLib W}.

Fixpoint extract_loop (backup : Backup) (filedestination : string)
    (list_of_fileIDs : list string) (c : counters) : M W counters :=
  match list_of_fileIDs with
  | [] => mret c
  | ID :: rest =>
      r ← extract_file_id backup ID filedestination;
      extract_loop backup filedestination rest (record_outcome ID r c)
  end.

(** The routine with the locals it ends with; [None] where it left
    before the loop. *)
Definition retrieve_photos (backup_path filedestination password : string)
    (list_of_fileIDs : list string) : M W (Z * option counters) :=
  match list_of_fileIDs with
  | [] => mret (0, None)
  | _ =>
      b ← from_path backup_path password;
      match b with
      | inl _ => mret (0, None)
      | inr backup =>
          c ← extract_loop backup filedestination list_of_fileIDs start;
          mret (extracted_count c, Some c)
      end
  end.

Definition retrieve_photos_from_backup
    (backup_path filedestination password : string)
    (list_of_fileIDs : list string) : M W Z :=
  r ← retrieve_photos backup_path filedestination password list_of_fileIDs;
  mret r.1.
End Retrieve.

End parse_ios_backup.

(** ** parse_backup: the extraction blocks

    The locals of [parse_backup] that the blocks after the photo
    catalog read and write.  [extracted_count] is [None] while the name
    is not in [locals()]. *)

Record locals : Type := {
  extracted_count : option Z;
  list_of_paths : list string;
  filtered_df : option DataFrame;
  photo_output_destination : option string;
  extracted_photos_path : option string;
}.

(** ['extracted_count' in locals() and extracted_count == 0 and list_of_paths] *)
Definition standard_found_nothing (L : locals) : bool :=
  match extracted_count L with
  | None => false
  | Some n => (n =? 0) && match list_of_paths L with [] => false | _ => true end
  end.

Definition nl : string := String (ascii_of_nat 10) EmptyString.

Section Blocks.
Context {W : Type} {lib : BackupLib W}.
Variables (backup_path password : string) (status_callback : bool).

(** Lines 636-677, from the locals the catalog query left: the photo
    folder, the file IDs and the filtered frame ([None] where the
    query raised before binding it).  The routine catches what it
    meets, so the [except] of the caller is never entered. *)
Definition standard_block (photo_folder : string)
    (fileIDs : list string) (df : option DataFrame) (L : locals) : M W locals :=
  n ← parse_ios_backup.retrieve_photos_from_backup backup_path
        photo_folder password fileIDs;
  mret {| extracted_count := Some n;
          list_of_paths := fileIDs;
          filtered_df := df;
          photo_output_destination := Some photo_folder;
          extracted_photos_path := extracted_photos_path L |}.

(** Lines 679-695.  The block sends its status message and evaluates
    [parse_ios_backup.extract_photos_direct]: the body of the class
    (lines 818-1762) binds no attribute of that name and nothing adds
    one, so the look-up raises [AttributeError] before anything is
    called.  The block stands in no [try]; the statements after the
    look-up are never run. *)
Definition direct_block (L : locals) : M W (result locals) :=
  if standard_found_nothing L then
    status status_callback
      "Standard extraction failed. Trying direct file extraction...";;
    mret (inl AttributeError)
  else mret (inr L).

(** Lines 697-713: the same with [parse_ios_backup.extract_photos_manifest],
    which the class does not bind either. *)
Definition manifest_block (L : locals) : M W (result locals) :=
  if standard_found_nothing L then
    status status_callback
      "Direct extraction failed. Trying manifest.db extraction...";;
    mret (inl AttributeError)
  else mret (inr L).

(** Lines 715-722: [report_photo_extraction_failure] is a bare name
    that neither the function nor the module binds, so evaluating it
    raises [NameError]. *)
Definition failure_block (L : locals) : M W (result locals) :=
  if standard_found_nothing L then mret (inl NameError)
  else mret (inr L).

(** Lines 679-722, run at the end of each turn of the artifact loop. *)
Definition fallback_blocks (L : locals) : M W (result locals) :=
  and_then (direct_block L) (λ L1,
  and_then (manifest_block L1) failure_block).

(** Lines 667-722 in the turn that handles Photos.sqlite. *)
Definition extraction_blocks (photo_folder : string)
    (fileIDs : list string) (df : option DataFrame) (L : locals)
  : M W (result locals) :=
  L0 ← standard_block photo_folder fileIDs df L;
  fallback_blocks L0.
End Blocks.

(** ** parse_backup: the recovery report (lines 725-789) *)

(** [x in recovered_files] for a set of [str]: only a [str] can be a
    member, and an unhashable object raises. *)
Definition py_in (x : PyVal) (recovered_files : gset string) : result bool :=
  match x with
  | PStr s => inr (bool_decide (s ∈ recovered_files))
  | PNone | PInt _ => inr false
  | PUnhashable => inl TypeError
  end.

Definition recovery_status (recovered_files : gset string) (row : Row) : string :=
  match py_in (Filename row) recovered_files with
  | inr true => "Recovered"
  | inr false => "Missing"
  | inl _ => "Error"
  end.

(** The frame with its ['Recovery Status'] column. *)
Definition StatusFrame : Type := list (Row * string).

Definition apply_recovery_status (recovered_files : gset string)
  (filtered_df : DataFrame) : StatusFrame :=
  map (λ row, (row, recovery_status recovered_files row)) filtered_df.

Definition has_status (st : string) (r : Row * string) : bool :=
  bool_decide (r.2 = st).

(** [(filtered_df['Recovery Status'] == st).sum()] *)
Definition count_status (st : string) (df : StatusFrame) : Z :=
  Z.of_nat (length (List.filter (has_status st) df)).

(** [filtered_df[filtered_df['Recovery Status'] == "Missing"]['Filename'].tolist()] *)
Definition missing_files_of (df : StatusFrame) : list PyVal :=
  map (λ r, Filename r.1) (List.filter (has_status "Missing") df).

Fixpoint join (sep : string) (xs : list string) : string :=
  match xs with
  | [] => EmptyString
  | [x] => x
  | x :: rest => x +:+ sep +:+ join sep rest
  end.

Fixpoint all_str (xs : list PyVal) : option (list string) :=
  match xs with
  | [] => Some []
  | PStr s :: rest => cons s <$> all_str rest
  | _ :: _ => None
  end.

(** [sep.join(xs)] raises on an item that is not a [str]. *)
Definition py_join (sep : string) (xs : list PyVal) : result string :=
  match all_str xs with
  | Some ss => inr (join sep ss)
  | None => inl TypeError
  end.

(** Lines 748-754: what is appended to the summary. *)
Definition missing_line (missing_files : list PyVal) : result string :=
  if (length missing_files <=? 10)%nat then
    match py_join ", " missing_files with
    | inl e => inl e
    | inr missing_list => inr ("Missing files: " +:+ missing_list +:+ nl)
    end
  else
    match py_join ", " (take 10 missing_files) with
    | inl e => inl e
    | inr missing_list =>
        inr ("Missing files: " +:+ missing_list +:+ "... (and "
             +:+ pretty (Z.of_nat (length missing_files) - 10) +:+ " more)" +:+ nl)
    end.

Inductive recovery : Type :=
  | Reconciled (frame : StatusFrame)
      (recovered_count total_attempted missing_count : Z)
      (extraction_summary : string)
  | NotReconciled (extraction_summary : string).

(** Lines 740-756 over the snapshot [recovered_files]. *)
Definition recovery_summary (recovered_files : gset string)
    (filtered_df : DataFrame) (extraction_summary : string) : result recovery :=
  let frame := apply_recovery_status recovered_files filtered_df in
  let recovered_count := count_status "Recovered" frame in
  let total_attempted := Z.of_nat (length frame) in
  let missing_count := total_attempted - recovered_count in
  let details := nl +:+ "EXTRACTION DETAILS" +:+ nl in
  if 0 <? missing_count then
    match missing_line (missing_files_of frame) with
    | inl e => inl e
    | inr line =>
        inr (Reconciled frame recovered_count total_attempted missing_count
               (extraction_summary +:+ line +:+ details))
    end
  else
    inr (Reconciled frame recovered_count total_attempted missing_count
           (extraction_summary +:+ details)).

Definition no_photos_line : string :=
  "No photos were extracted or photo extraction path does not exist." +:+ nl.

(** Lines 739-745 over the snapshot [recovered_files]: the frame with
    its status column, [recovered_count], [total_attempted] and
    [missing_count]. *)
Definition reconcile (recovered_files : gset string) (filtered_df : DataFrame)
  : StatusFrame * Z * Z * Z :=
  let frame := apply_recovery_status recovered_files filtered_df in
  let recovered_count := count_status "Recovered" frame in
  let total_attempted := Z.of_nat (length frame) in
  let missing_count := total_attempted - recovered_count in
  (frame, recovered_count, total_attempted, missing_count).

Section Reconciliation.
Context {W : Type} {os : OsLib W}.

(** Lines 725-745: the guard of the block, the one listing of the
    photo folder and the counts; [None] where the guard sends to the
    [else] of line 787. *)
Definition reconcile_block (photo_output_destination : option string)
    (filtered_df : option DataFrame) : M W (option (StatusFrame * Z * Z * Z)) :=
  match photo_output_destination with
  | None | Some EmptyString => mret None
  | Some dest =>
      present ← path_exists dest;
      if (present : bool) then
        match filtered_df with
        | None => mret None
        | Some df =>
            entries ← listdir dest;
            let recovered_files : gset string := list_to_set entries in
            mret (Some (reconcile recovered_files df))
        end
      else mret None
  end.
End Reconciliation.

(** ** Reading a trace *)

(** The [extract_file_id] calls of a trace, with what each returned. *)
Definition attempts (l : list Event) : list (string * result unit) :=
  omap (λ e, match e with EvExtract ID _ r => Some (ID, r) | _ => None end) l.

Definition is_listdir (e : Event) : bool :=
  match e with EvListdir _ _ => true | _ => false end.

Definition is_collaborator_call (e : Event) : bool :=
  match e with EvStatus _ => false | _ => true end.

(** The collaborator calls of a trace, status messages dropped. *)
Definition calls (l : list Event) : list Event :=
  List.filter is_collaborator_call l.

Definition extracted_ok (a : string * result unit) : bool :=
  match a.2 with inr _ => true | inl _ => false end.

Definition raised_missing (a : string * result unit) : bool :=
  match a.2 with inl e => is_MissingEntryError e | inr _ => false end.

Definition raised (a : string * result unit) : bool := negb (extracted_ok a).

(** The counters of the extraction loop after the outcomes [tried],
    from the counters [c]. *)
Definition replay (tried : list (string * result unit))
    (c : parse_ios_backup.counters) : parse_ios_backup.counters :=
  fold_left (λ c a, parse_ios_backup.record_outcome a.1 a.2 c) tried c.

Definition is_lower_hex (a : ascii) : bool :=
  let n := Z.of_N (N_of_ascii a) in
  ((48 <=? n) && (n <=? 57)) || ((97 <=? n) && (n <=? 102)).

Definition is_str (x : PyVal) : bool :=
  match x with PStr _ => true | _ => false end.

Definition str_of (x : PyVal) : string :=
  match x with PStr s => s | _ => EmptyString end.

(** The file names of the records marked Missing, as text. *)
Definition missing_names (frame : StatusFrame) : list string :=
  map str_of (missing_files_of frame).

Definition filenames_are_str (df : DataFrame) : bool :=
  forallb (λ row, is_str (Filename row)) df.


(** ** A scripted world

    A backup whose entries and folders are tables, and the reports
    written so far; it stands for the collaborators in the worked
    cases. *)

Record Scripted : Type := {
  opens : bool;
  entries : list (string * PyExc);
  folders : list (string * list string);
  written : list string;
}.

Fixpoint assoc {A : Type} (k : string) (l : list (string * A)) : option A :=
  match l with
  | [] => None
  | (k', v) :: rest => if bool_decide (k = k') then Some v else assoc k rest
  end.

(** An ID of the table raises what the table says; any other ID is
    extracted. *)
#[global] Instance Scripted_backup : BackupLib Scripted := {|
  Backup := unit;
  Backup_from_path := λ _ _ w,
    (if opens w then inr tt else inl (OtherError "not a backup"), w);
  Backup_extract_file_id := λ _ ID _ w,
    (match assoc ID (entries w) with Some e => inl e | None => inr tt end, w);
|}.

#[global] Instance Scripted_os : OsLib Scripted := {|
  os_path_exists := λ p w,
    match assoc p (folders w) with Some _ => true | None => false end;
  os_listdir := λ p w, default [] (assoc p (folders w));
|}.

(** Every write succeeds and is recorded. *)
#[global] Instance Scripted_report : ReportLib Scripted := {|
  write_text := λ path _ w,
    (inr tt, {| opens := opens w; entries := entries w; folders := folders w;
                written := written w ++ [path] |});
  frame_to_csv := λ path _ w,
    (inr tt, {| opens := opens w; entries := entries w; folders := folders w;
                written := written w ++ [path] |});
|}.

(** A conversion that marks the text with the zone. *)
Definition Scripted_timezone : TimezoneLib := {|
  convert_timezone := λ timestamp_str target_timezone,
    timestamp_str +:+ " -> " +:+ target_timezone;
|}.

Definition photo (scene : string) (confidence : Z) (filename : string) : Row :=
  {| Scene_Classification := SceneLabel scene;
     Confidence := Some confidence;
     Path := PStr "DCIM/100APPLE";
     Filename := PStr filename;
     Date_Created := "2024-01-01 00:00:00 UTC";
     Date_Added := "2024-01-01 00:00:00 UTC" |}.

(** A backup that opens, with one ID that is not in the manifest, one
    that hits a full disk and one whose record is corrupt; the photo
    folder holds two files. *)
Definition demo_world : Scripted := {|
  opens := true;
  entries := [("gone", MissingEntryError); ("disk", IOError);
              ("bad", OtherError "corrupt record")];
  folders := [("out/Photos_firearm", ["IMG_0001.JPG"; "IMG_0003.JPG"])];
  written := [];
|}.

Definition no_locals : locals := {|
  extracted_count := None;
  list_of_paths := [];
  filtered_df := None;
  photo_output_destination := None;
  extracted_photos_path := None;
|}.

(** Twelve photos, of which the folder of [demo_world] holds the
    first and the third. *)
Definition twelve_photos : DataFrame :=
  map (photo "firearm" 60)
    ["IMG_0001.JPG"; "IMG_0002.JPG"; "IMG_0003.JPG"; "IMG_0004.JPG";
     "IMG_0005.JPG"; "IMG_0006.JPG"; "IMG_0007.JPG"; "IMG_0008.JPG";
     "IMG_0009.JPG"; "IMG_0010.JPG"; "IMG_0011.JPG"; "IMG_0012.JPG"].

(** Fourteen photos, none of them in the folder. *)
Definition fourteen_photos : DataFrame :=
  map (photo "firearm" 60)
    ["P01"; "P02"; "P03"; "P04"; "P05"; "P06"; "P07";
     "P08"; "P09"; "P10"; "P11"; "P12"; "P13"; "P14"].

(** A record whose file name is NULL in the catalog. *)
Definition null_photo : Row := {|
  Scene_Classification := SceneLabel "firearm";
  Confidence := Some 60;
  Path := PStr "DCIM/100APPLE";
  Filename := PNone;
  Date_Created := EmptyString;
  Date_Added := EmptyString;
|}.

(** A record whose file name is not hashable. *)
Definition odd_photo : Row := {|
  Scene_Classification := SceneLabel "firearm";
  Confidence := Some 60;
  Path := PStr "DCIM/100APPLE";
  Filename := PUnhashable;
  Date_Created := EmptyString;
  Date_Added := EmptyString;
|}.

(** * Further definitions

    The rest of [src/parser/backup_parser.py] that is plain code: the
    report headers, the records built for display, the encryption
    status, the extraction of the artifact files, the list of photo
    file IDs, the scene dictionary, the group-chat columns of the
    message table and the cleaning of the notes; and
    [is_backup_encrypted] of [src/ui/app.py], which reads the same
    manifest. *)

(** ** Report headers

    [device_info] is a Python [dict]: its items in insertion order. *)

Definition device_info_items : Type := list (string * string).

(** [for key, value in device_info.items(): if value: header += f"{key}: {value}\n"] *)
Definition add_device_lines (header : string) (device_info : device_info_items)
  : string :=
  fold_left
    (λ header item,
       match item.2 with
       | EmptyString => header
       | _ => header +:+ item.1 +:+ ": " +:+ item.2 +:+ nl
       end)
    device_info header.

(** The line of an item that has a value. *)
Definition device_line (item : string * string) : string :=
  item.1 +:+ ": " +:+ item.2 +:+ nl.

Definition format_device_info_header (device_info : device_info_items) : string :=
  add_device_lines ("DEVICE INFORMATION" +:+ nl) device_info +:+ nl.

(** The header that [save_report_with_device_info] writes before the
    frame. *)
Definition save_report_device_header (report_title : string)
    (device_info : device_info_items) : string :=
  add_device_lines (report_title +:+ nl +:+ nl +:+ "DEVICE INFORMATION" +:+ nl)
    device_info +:+ nl.

(** Lines 770-775 of [parse_backup]: the header of the photo report. *)
Definition photo_report_device_header (device_info : device_info_items) : string :=
  add_device_lines
    ("PHOTO ANALYSIS REPORT" +:+ nl +:+ nl +:+ "DEVICE INFORMATION" +:+ nl)
    device_info +:+ nl.

(** ** Records for display

    [for i, header in enumerate(headers): record[header] = row[i] if
    i < len(row) else ''], for any type of cell; [blank] is the cell
    [''].  A later header of the same name overwrites the earlier one. *)

Section Records.
Context {Cell : Type}.
Variable blank : Cell.

Fixpoint fill_record (i : nat) (headers : list string) (row : list Cell)
    (record : gmap string Cell) : gmap string Cell :=
  match headers with
  | [] => record
  | header :: rest =>
      fill_record (S i) rest row (<[header := default blank (row !! i)]> record)
  end.

Definition record_of (headers : list string) (row : list Cell)
  : gmap string Cell :=
  fill_record 0 headers row ∅.

(** The literal of [parse_backup] for a call: [row[k] if len(row) > k
    else ''] under six fixed keys. *)
Definition call_record (row : list Cell) : gmap string Cell :=
  <["call_type" := default blank (row !! 5%nat)]>
  (<["answered" := default blank (row !! 4%nat)]>
  (<["direction" := default blank (row !! 3%nat)]>
  (<["phone_number" := default blank (row !! 2%nat)]>
  (<["duration" := default blank (row !! 1%nat)]>
  (<["date" := default blank (row !! 0%nat)]> ∅))))).

Definition call_keys : list string :=
  ["date"; "duration"; "phone_number"; "direction"; "answered"; "call_type"].

(** The literal for a contact, under eight fixed keys. *)
Definition contact_record (row : list Cell) : gmap string Cell :=
  <["email" := default blank (row !! 7%nat)]>
  (<["work_number" := default blank (row !! 6%nat)]>
  (<["home_number" := default blank (row !! 5%nat)]>
  (<["mobile_number" := default blank (row !! 4%nat)]>
  (<["iphone_number" := default blank (row !! 3%nat)]>
  (<["main_number" := default blank (row !! 2%nat)]>
  (<["first_name" := default blank (row !! 1%nat)]>
  (<["last_name" := default blank (row !! 0%nat)]> ∅))))))).

Definition contact_keys : list string :=
  ["last_name"; "first_name"; "main_number"; "iphone_number";
   "mobile_number"; "home_number"; "work_number"; "email"].
End Records.

(** ** The encryption status

    What reading [Manifest.plist] gives: no file, a file whose reading
    raises (it cannot be opened, or [plistlib.load] rejects it), or a
    manifest with its [IsEncrypted] entry ([None] when the key is
    absent). *)

Inductive manifest_file : Type :=
  | NoManifest
  | UnreadableManifest (e : PyExc)
  | Manifest (IsEncrypted : option bool).

Record encryption : Type := {
  is_encrypted : bool;
  requires_password : bool;
  has_password : bool;
}.

(** [bool(password)] *)
Definition nonempty (s : string) : bool :=
  match s with EmptyString => false | _ => true end.

(** Lines 248-265 of [parse_backup]. *)
Definition encryption_status (m : manifest_file) (password : string) : encryption :=
  match m with
  | Manifest IsEncrypted =>
      let encrypted := default false IsEncrypted in
      {| is_encrypted := encrypted;
         requires_password := encrypted;
         has_password := if encrypted then nonempty password else true |}
  | NoManifest | UnreadableManifest _ =>
      {| is_encrypted := false; requires_password := false; has_password := false |}
  end.

(** [is_backup_encrypted] of [src/ui/app.py]. *)
Definition is_backup_encrypted (m : manifest_file) : bool :=
  match m with
  | NoManifest => false
  | Manifest IsEncrypted => default false IsEncrypted
  | UnreadableManifest _ => true
  end.

(** ** The artifact files

    [str(e)] of an exception is the library's; the routines take it as
    [exc_str]. *)

Definition artifact_fileIDs : list string :=
  ["12b144c0bd44f2b3dffd9186d3f9c05b917cee25";
   "0d609c54856a9bb2d56729df1d68f2958a88426b";
   "31bb7ba8914766d4ba40d6dfb6113c8b614be442";
   "943624fd13e27b800cc6d9ce1100c22356ee365c";
   "3d0d7e5fb2ce288813306e4d4636395e047a3d28";
   "64d0019cb3d46bfc8cce545a8ba54b93e7ea9347";
   "5a4935c78a5255723f707230a451d79c540d2741";
   "ed1f8fb5a948b40504c19580a458c384659a605e";
   "51a4616e576dd33cd2abadfea874eb8ff246bf0e";
   "ca3bc056d4da0bbf88b5fb3be254f3b7147e639c";
   "1f5a521220a3ad80ebfdc196978df8e7a2e49dee";
   "e74113c185fd8297e140cfcf9c99436c5cc06b57";
   "1a0e7afc19d307da602ccdcece51af33afe92c53";
   "992df473bbb9e132f4b3b6e4d33f72171e97bc7a"].

Section Artifacts.
Context {W : Type} {lib : BackupLib W}.
Variable exc_str : PyExc → string.

(** The loop of lines 310-317 of [parse_backup]. *)
Fixpoint extract_artifacts_loop (status_callback : bool) (backup : Backup)
    (file_output_destination : string) (list_of_fileIDs : list string)
  : M W unit :=
  match list_of_fileIDs with
  | [] => mret tt
  | ID :: rest =>
      r ← extract_file_id backup ID file_output_destination;
      match r with
      | inr _ => status status_callback ("Extracted file " +:+ ID)
      | inl e =>
          status status_callback
            ("Error extracting file " +:+ ID +:+ ": " +:+ exc_str e)
      end;;
      extract_artifacts_loop status_callback backup file_output_destination rest
  end.

(** Lines 290-320 of [parse_backup]. *)
Definition extract_artifacts (status_callback : bool)
    (backup_path password file_output_destination : string) : M W unit :=
  b ← from_path backup_path password;
  match b with
  | inr backup =>
      extract_artifacts_loop status_callback backup file_output_destination
        artifact_fileIDs
  | inl e =>
      status status_callback
        ("Error setting up backup extraction: " +:+ exc_str e)
  end.
End Artifacts.

(** [parse_ios_backup.retrieve_files_from_backup]: the same fourteen
    IDs in another order, no handler around [Backup.from_path], and a
    handler in the loop whose two branches both go on to the next ID. *)
Definition retrieve_files_fileIDs : list string :=
  ["12b144c0bd44f2b3dffd9186d3f9c05b917cee25";
   "0d609c54856a9bb2d56729df1d68f2958a88426b";
   "1a0e7afc19d307da602ccdcece51af33afe92c53";
   "31bb7ba8914766d4ba40d6dfb6113c8b614be442";
   "943624fd13e27b800cc6d9ce1100c22356ee365c";
   "3d0d7e5fb2ce288813306e4d4636395e047a3d28";
   "64d0019cb3d46bfc8cce545a8ba54b93e7ea9347";
   "5a4935c78a5255723f707230a451d79c540d2741";
   "ed1f8fb5a948b40504c19580a458c384659a605e";
   "51a4616e576dd33cd2abadfea874eb8ff246bf0e";
   "ca3bc056d4da0bbf88b5fb3be254f3b7147e639c";
   "1f5a521220a3ad80ebfdc196978df8e7a2e49dee";
   "e74113c185fd8297e140cfcf9c99436c5cc06b57";
   "992df473bbb9e132f4b3b6e4d33f72171e97bc7a"].

Section RetrieveFiles.
Context {W : Type} {lib : BackupLib W}.

Fixpoint retrieve_files_loop (backup : Backup) (filedestination : string)
    (list_of_fileIDs : list string) : M W unit :=
  match list_of_fileIDs with
  | [] => mret tt
  | ID :: rest =>
      extract_file_id backup ID filedestination;;
      retrieve_files_loop backup filedestination rest
  end.

Definition retrieve_files_from_backup
    (backup_path filedestination password : string) : M W (result unit) :=
  b ← from_path backup_path password;
  match b with
  | inl e => mret (inl e)
  | inr backup =>
      retrieve_files_loop backup filedestination retrieve_files_fileIDs;;
      mret (inr tt)
  end.
End RetrieveFiles.

(** ** The list of photo file IDs

    Lines 656-664 of [parse_backup], over the texts [Path + '/' +
    Filename] of the filtered frame: the loop stands inside a [try], so
    the first text that does not encode ends it and the IDs appended so
    far stay in [list_of_paths].  The [print] calls of the loop are not
    part of the model. *)
Fixpoint photo_fileIDs (pathdf : list pystr) : list string :=
  match pathdf with
  | [] => []
  | thing :: rest =>
      match calculate_itunes_photofile_name thing with
      | inr fileid => fileid :: photo_fileIDs rest
      | inl _ => []
      end
  end.

(** ** The scene dictionary

    [taxonomy_Dict], and [df['Scene Classification'].replace(taxonomy_Dict)]
    over a column of scene identifiers. *)

Definition taxonomy_Dict : list (Z * string) :=
  [(450, "currency"); (492, "document"); (554, "firearm"); (759, "keypad");
   (881, "people"); (983, "phone"); (1447, "vehicle"); (1605, "body_part");
   (1622, "computer"); (1632, "weapon"); (1664, "handwriting");
   (1665, "screenshot"); (1668, "laptop"); (1736, "child"); (1758, "teen");
   (1777, "underwear"); (1600, "adult"); (8, "building"); (139, "atm");
   (147, "baby"); (1754, "mask"); (1659, "military_uniform");
   (800, "license_plate"); (13, "fire"); (432, "credit_card");
   (1086, "receipt"); (2147483655, "outdoor_scene")].

Fixpoint dict_get (id : Z) (d : list (Z * string)) : option string :=
  match d with
  | [] => None
  | (k, v) :: rest => if k =? id then Some v else dict_get id rest
  end.

Definition replace_scene (id : Z) : Scene :=
  match dict_get id taxonomy_Dict with
  | Some label => SceneLabel label
  | None => SceneId id
  end.

Definition replace_taxonomy_id_w_descr (scene_ids : list Z) : list Scene :=
  map replace_scene scene_ids.

(** [get_taxonomy_options] of [src/ui/app.py] offers " " and the labels
    of the dictionary. *)
Definition taxonomy_labels : list string := map snd taxonomy_Dict.

(** ** The group-chat columns of the message table

    [sqlite_run_SMS] after its two queries.  A cell of a fetched row is
    an SQLite value. *)

Inductive SqlVal : Type :=
  | SqlNull
  | SqlInt (z : Z)
  | SqlText (s : string)
  | SqlBlob (bytes : string).

(** A row of the group query: [chat.ROWID], [display_name],
    [chat_identifier], the count of distinct handles (an integer, so
    [row[3] or 0] is the count) and the participants joined by ", ". *)
Record chat : Type := {
  chat_ROWID : Z;
  display_name : option string;
  chat_identifier : option string;
  participant_count : Z;
  participants : option string;
}.

Record group_info : Type := {
  name : string;
  members : string;
  is_group : bool;
  count : Z;
}.

(** [sub in s] *)
Fixpoint contains (sub s : string) : bool :=
  String.prefix sub s
  || match s with
     | EmptyString => false
     | String _ s' => contains sub s'
     end.

(** [s.split(', ')] *)
Fixpoint split_comma (s : string) : list string :=
  match s with
  | EmptyString => [EmptyString]
  | String "," (String " " s') => EmptyString :: split_comma s'
  | String c s' =>
      match split_comma s' with
      | piece :: pieces => String c piece :: pieces
      | [] => [String c EmptyString]
      end
  end.

Definition group_info_of (row : chat) : group_info :=
  {| name := default EmptyString (display_name row);
     members := default EmptyString (participants row);
     is_group :=
       (1 <? participant_count row)
       || match chat_identifier row with
          | Some id => String.prefix "chat" id
          | None => false
          end
       || contains "chat.plist" (default EmptyString (chat_identifier row));
     count := participant_count row |}.

(** [group_data[chat_id] = {...}] for each row of the group query. *)
Definition group_data_of (rows : list chat) : gmap Z group_info :=
  fold_left (λ group_data row, <[chat_ROWID row := group_info_of row]> group_data)
    rows ∅.

(** The name shown for a group: its name, or its first three
    participants. *)
Definition group_display_name (g : group_info) : string :=
  match name g with
  | EmptyString =>
      let participants := split_comma (members g) in
      if (length participants <=? 3)%nat then join ", " participants
      else join ", " (take 3 participants) +:+ "... (+"
           +:+ pretty (Z.of_nat (length participants) - 3) +:+ ")"
  | _ => name g
  end.

(** The two cells appended to a message row. *)
Definition group_cells (group_data : gmap Z group_info) (chat_id : SqlVal)
  : list SqlVal :=
  match chat_id with
  | SqlInt z =>
      match group_data !! z with
      | Some g =>
          if is_group g then [SqlText "Yes"; SqlText (group_display_name g)]
          else [SqlText "No"; SqlText EmptyString]
      | None => [SqlText "No"; SqlText EmptyString]
      end
  | _ => [SqlText "No"; SqlText EmptyString]
  end.

(** [column_headers.index('Chat ID')] *)
Fixpoint index_of (x : string) (l : list string) : option nat :=
  match l with
  | [] => None
  | y :: rest => if bool_decide (y = x) then Some O else S <$> index_of x rest
  end.

Definition process_message_row (column_headers : list string)
    (group_data : gmap Z group_info) (row : list SqlVal) : result (list SqlVal) :=
  match index_of "Chat ID" column_headers with
  | None => inl (OtherError "ValueError")
  | Some i =>
      match row !! i with
      | None => inl (OtherError "IndexError")
      | Some chat_id => inr (row ++ group_cells group_data chat_id)
      end
  end.

Fixpoint process_message_rows (column_headers : list string)
    (group_data : gmap Z group_info) (results : list (list SqlVal))
  : result (list (list SqlVal)) :=
  match results with
  | [] => inr []
  | row :: rest =>
      match process_message_row column_headers group_data row with
      | inl e => inl e
      | inr row_list =>
          match process_message_rows column_headers group_data rest with
          | inl e => inl e
          | inr processed => inr (row_list :: processed)
          end
      end
  end.

(** The headers and rows that [sqlite_run_SMS] returns, from the rows
    of its two queries. *)
Definition sqlite_run_SMS_table (chats : list chat) (column_headers : list string)
    (results : list (list SqlVal)) : result (list string * list (list SqlVal)) :=
  match process_message_rows column_headers (group_data_of chats) results with
  | inl e => inl e
  | inr processed =>
      inr (column_headers ++ ["Is Group Chat"; "Group Name"], processed)
  end.

(** ** Reading a trace, continued *)

(** The messages sent to [status_callback]. *)
Definition statuses (l : list Event) : list string :=
  omap (λ e, match e with EvStatus msg => Some msg | _ => None end) l.

(** The message of the artifact loop for one call of [extract_file_id]. *)
Definition artifact_status (exc_str : PyExc → string)
    (a : string * result unit) : string :=
  match a.2 with
  | inr _ => "Extracted file " +:+ a.1
  | inl e => "Error extracting file " +:+ a.1 +:+ ": " +:+ exc_str e
  end.

(** A code point that UTF-8 can encode: a Unicode scalar value. *)
Definition is_scalar (c : Z) : bool :=
  (0 <=? c) && (c <=? 1114111) && negb ((55296 <=? c) && (c <=? 57343)).

(** [str(e)] in the worked cases. *)
Definition demo_exc_str (e : PyExc) : string :=
  match e with
  | MissingEntryError => "missing entry"
  | IOError => "[Errno 28] No space left on device"
  | UnicodeEncodeError => "surrogates not allowed"
  | TypeError => "type error"
  | AttributeError => "attribute error"
  | NameError => "name error"
  | OtherError msg => msg
  end.

(** The backup of [demo_world] when it cannot be opened. *)
Definition locked_world : Scripted := {|
  opens := false;
  entries := entries demo_world;
  folders := folders demo_world;
  written := [];
|}.

(** A backup without its call history. *)
Definition partial_world : Scripted := {|
  opens := true;
  entries := [("5a4935c78a5255723f707230a451d79c540d2741", MissingEntryError)];
  folders := [];
  written := [];
|}.

(** A catalog of three rows as [photo_taxonomy] leaves it: a firearm,
    a document and a scene that the dictionary does not know. *)
Definition three_scenes : DataFrame :=
  map (λ '(id, confidence, filename),
         {| Scene_Classification := replace_scene id;
            Confidence := Some confidence;
            Path := PStr "DCIM/100APPLE";
            Filename := PStr filename;
            Date_Created := EmptyString;
            Date_Added := EmptyString |})
    [(554, 80, "IMG_0001.JPG"); (492, 95, "IMG_0002.JPG"); (77, 99, "IMG_0003.JPG")].

(** [c] put before the first piece of a split. *)
Definition push_char (c : ascii) (pieces : list string) : list string :=
  match pieces with
  | piece :: rest => String c piece :: rest
  | [] => [String c EmptyString]
  end.

(** Two chats and their messages for the worked cases: a group of four
    without a name, and a chat with one person. *)
Definition demo_chats : list chat :=
  [ {| chat_ROWID := 7; display_name := None;
       chat_identifier := Some "chat123456";
       participant_count := 4;
       participants := Some "+15550100, +15550101, +15550102, +15550103" |};
    {| chat_ROWID := 8; display_name := Some EmptyString;
       chat_identifier := Some "+15550100";
       participant_count := 1;
       participants := Some "+15550100" |} ].

Definition demo_headers : list string := ["Message Date"; "Chat ID"; "Contact"].

Definition demo_messages : list (list SqlVal) :=
  [ [SqlText "2024-01-01 10:00:00"; SqlInt 7; SqlText "+15550101"];
    [SqlText "2024-01-01 10:05:00"; SqlInt 8; SqlText "+15550100"];
    [SqlNull; SqlInt 9; SqlText EmptyString] ].

(** A write to the file system. *)
Definition is_write (e : Event) : bool :=
  match e with
  | EvWrite _ _ _ | EvToCsv _ _ _ => true
  | _ => false
  end.

(** A recovered photo, a missing one and one whose name raises. *)
Definition mixed_photos : DataFrame :=
  [photo "firearm" 60 "IMG_0001.JPG"; photo "firearm" 60 "IMG_0002.JPG"; odd_photo].

(** Eleven missing photos, the last of which has no file name. *)
Definition eleven_photos : DataFrame :=
  map (photo "firearm" 60)
    ["P01"; "P02"; "P03"; "P04"; "P05"; "P06"; "P07"; "P08"; "P09"; "P10"]
  ++ [ {| Scene_Classification := SceneLabel "firearm"; Confidence := Some 60;
          Path := PStr "DCIM/100APPLE"; Filename := PNone;
          Date_Created := EmptyString; Date_Added := EmptyString |} ].


(** ** The text of a note

    [sqlite_run_notes] cleans the content of each note with three
    [re.sub] calls and [strip()].  A pattern of these calls is a
    sequence of character classes, each taken once or, under [+], one
    time or more. *)

Inductive quantifier : Type := Once | OneOrMore.

Definition pattern : Type := list ((Z → bool) * quantifier).

(** The length of the match of a pattern at the start of a text, if it
    matches there.  [+] takes as many characters as it can and gives
    them back one by one while the rest of the pattern does not match. *)
Fixpoint match_len (p : pattern) : pystr → option nat :=
  match p with
  | [] => λ _, Some O
  | (cls, Once) :: rest =>
      λ s, match s with
           | c :: s' => if cls c then S <$> match_len rest s' else None
           | [] => None
           end
  | (cls, OneOrMore) :: rest =>
      fix more (s : pystr) : option nat :=
        match s with
        | c :: s' =>
            if cls c then
              match more s' with
              | Some n => Some (S n)
              | None => S <$> match_len rest s'
              end
            else None
        | [] => None
        end
  end.

(** [re.sub(pattern, repl, s)] for a pattern that matches no empty text:
    the text is read from left to right, a match is replaced by [repl]
    and the reading goes on after it.  [skip] is the number of
    characters of the current match that are still to pass. *)
Fixpoint sub_from (p : pattern) (repl : pystr) (skip : nat) (s : pystr) : pystr :=
  match s with
  | [] => []
  | c :: s' =>
      match skip with
      | S k => sub_from p repl k s'
      | O =>
          match match_len p s with
          | Some (S n) => repl ++ sub_from p repl n s'
          | _ => c :: sub_from p repl O s'
          end
      end
  end.

Definition re_sub (p : pattern) (repl s : pystr) : pystr := sub_from p repl O s.

Definition is_char (x c : Z) : bool := c =? x.

Definition not_char (x c : Z) : bool := negb (c =? x).

(** [\s] of a [str] pattern, and the characters that [str.strip()]
    removes: the white space of Unicode. *)
Definition is_space (c : Z) : bool :=
  (9 <=? c) && (c <=? 13) || (28 <=? c) && (c <=? 32)
  || (c =? 133) || (c =? 160) || (c =? 5760)
  || (8192 <=? c) && (c <=? 8202)
  || (c =? 8232) || (c =? 8233) || (c =? 8239) || (c =? 8287) || (c =? 12288).

(** [[a-zA-Z]] *)
Definition is_ascii_letter (c : Z) : bool :=
  (65 <=? c) && (c <=? 90) || (97 <=? c) && (c <=? 122).

(** [r'<[^>]+>'] *)
Definition tag_pattern : pattern :=
  [(is_char 60, Once); (not_char 62, OneOrMore); (is_char 62, Once)].

(** [r'\s+'] *)
Definition space_pattern : pattern := [(is_space, OneOrMore)].

(** [r'&[a-zA-Z]+;'] *)
Definition entity_pattern : pattern :=
  [(is_char 38, Once); (is_ascii_letter, OneOrMore); (is_char 59, Once)].

Fixpoint lstrip (s : pystr) : pystr :=
  match s with
  | c :: s' => if is_space c then lstrip s' else s
  | [] => []
  end.

(** [s.strip()] *)
Definition strip (s : pystr) : pystr := rev (lstrip (rev (lstrip s))).

(** The cleaning of a content that is not empty; the replacement is
    one space each time. *)
Definition cleaned_content (content : pystr) : pystr :=
  let cleaned_content := re_sub tag_pattern [32] content in
  let cleaned_content := re_sub space_pattern [32] cleaned_content in
  let cleaned_content := re_sub entity_pattern [32] cleaned_content in
  strip cleaned_content.

(** The loop of [sqlite_run_notes] over the fetched rows, each the
    [ZCONTENT] of a note: a text or [None] for NULL.  [if row[0]] sends
    the empty text the way of NULL. *)
Definition cleaned_row (content : option pystr) : option pystr :=
  match content with
  | Some (c :: s) => Some (cleaned_content (c :: s))
  | Some [] | None => None
  end.

Definition cleaned_results (results : list (option pystr)) : list (option pystr) :=
  map cleaned_row results.

(** The pattern matches nowhere in the text. *)
Definition no_match (p : pattern) (s : pystr) : Prop :=
  ∀ pre suf : pystr, s = pre ++ suf → match_len p suf = None.

(** No two white-space characters in a row. *)
Fixpoint single_spaced (s : pystr) : bool :=
  match s with
  | c :: s' =>
      negb (is_space c && match s' with d :: _ => is_space d | [] => false end)
      && single_spaced s'
  | [] => true
  end.

(** ** parse_backup: the photo report (lines 725-789)

    The reconciliation, the summary, and the report file: the date
    columns converted when a time zone is given, the device header and
    the summary written to the file, the frame appended. *)

(** [lambda x: convert_timezone(x, timezone) if x and 'UTC' in str(x) else x] *)
Definition convert_cell {tz : TimezoneLib} (timezone x : string) : string :=
  if nonempty x && contains "UTC" x then convert_timezone x timezone else x.

(** Lines 761-766.  Of the columns of the frame, the names of
    [Date Created] and [Date Added] hold "date" or "time". *)
Definition convert_dates {tz : TimezoneLib} (timezone : option string)
    (frame : StatusFrame) : StatusFrame :=
  match timezone with
  | None | Some EmptyString => frame
  | Some zone =>
      map (λ r : Row * string,
             ({| Scene_Classification := Scene_Classification r.1;
                 Confidence := Confidence r.1;
                 Path := Path r.1;
                 Filename := Filename r.1;
                 Date_Created := convert_cell zone (Date_Created r.1);
                 Date_Added := convert_cell zone (Date_Added r.1) |}, r.2))
        frame
  end.

Section Recovery.
Context {W : Type} {os : OsLib W} {report : ReportLib W} {tz : TimezoneLib}.

(** [photo_report_csv] is
    [os.path.join(reports_dir, f'Photo_Report_{taxonomy_target}.csv')]. *)
Variables (photo_report_csv : string) (device_info : device_info_items)
  (timezone : option string) (status_callback : bool).

(** Lines 758-786, once the summary is made. *)
Definition save_photo_report (frame : StatusFrame)
    (recovered_count total_attempted missing_count : Z)
    (extraction_summary : string) : M W (result recovery) :=
  let frame := convert_dates timezone frame in
  let device_header := photo_report_device_header device_info in
  and_then (write photo_report_csv (device_header +:+ extraction_summary)) (λ _,
  and_then (to_csv photo_report_csv frame) (λ _,
    status status_callback
      ("Saved photo report with extraction summary to " +:+ photo_report_csv);;
    mret (inr (Reconciled frame recovered_count total_attempted missing_count
                 extraction_summary)))).

(** Lines 726-786, the branch of the block that reconciles. *)
Definition reconcile_and_report (dest : string) (df : DataFrame)
    (extraction_summary : string) : M W (result recovery) :=
  entries ← listdir dest;
  let recovered_files : gset string := list_to_set entries in
  match recovery_summary recovered_files df extraction_summary with
  | inl e => mret (inl e)
  | inr (Reconciled frame recovered_count total_attempted missing_count
           extraction_summary) =>
      save_photo_report frame recovered_count total_attempted missing_count
        extraction_summary
  | inr (NotReconciled extraction_summary) =>
      mret (inr (NotReconciled extraction_summary))
  end.

(** [if photo_output_destination and os.path.exists(...) and
    filtered_df is not None: ... else: ...] *)
Definition recovery_block (photo_output_destination : option string)
    (filtered_df : option DataFrame) (extraction_summary : string)
  : M W (result recovery) :=
  let otherwise : M W (result recovery) :=
    mret (inr (NotReconciled (extraction_summary +:+ no_photos_line))) in
  match photo_output_destination with
  | None | Some EmptyString => otherwise
  | Some dest =>
      present ← path_exists dest;
      if (present : bool) then
        match filtered_df with
        | None => otherwise
        | Some df => reconcile_and_report dest df extraction_summary
        end
      else otherwise
  end.
End Recovery.
(** * Properties *)

(** ** The content address *)

Example sha1_abc :
  Sha1.hexdigest (pystr_of_string "abc") = "a9993e364706816aba3e25717850c26c9cd0d89d"%string.
Proof. vm_compute. reflexivity. Qed.

Example photofile_name_img_0001 :
  calculate_itunes_photofile_name (pystr_of_string "DCIM/100APPLE/IMG_0001.JPG")
  = inr "343e26971dfe9c395c425c0ccf799df63ae6261e"%string.
Proof. vm_compute. reflexivity. Qed.

Example photofile_name_two_blocks :
  calculate_itunes_photofile_name (repeat 97 60)
  = inr "a5d8120737a86b1a2aa51c787bb83c16d85e3f74"%string.
Proof. vm_compute. reflexivity. Qed.

Example photofile_name_non_ascii :
  calculate_itunes_photofile_name [8364; 128512]
  = inr "a39abd44cc5f9d4c411619830d1308f39be99f3c"%string.
Proof. vm_compute. reflexivity. Qed.

(** Paths that bring the hashed text to 55, 56 and 64 bytes, where the
    padding changes shape. *)
Example photofile_name_padding_edges :
  calculate_itunes_photofile_name (repeat 98 32)
    = inr "46ffae6e810d09f2cfc3c9d59dee992a56fb2ea4"%string
  ∧ calculate_itunes_photofile_name (repeat 98 33)
    = inr "10cdf281d429239d1d74dba6ce9e10ed1ad982c6"%string
  ∧ calculate_itunes_photofile_name (repeat 98 41)
    = inr "f018949e154d3a6b7431c576e9409805ed7e2592"%string.
Proof. vm_compute. repeat split; reflexivity. Qed.

(** Code points at the ends of the two-, three- and four-byte ranges. *)
Example photofile_name_utf8_ranges :
  calculate_itunes_photofile_name [233; 2047; 2048; 65535; 65536; 1114111]
  = inr "a74e52f5d34860457fe506ecc5c12879147f3cd5"%string.
Proof. vm_compute. reflexivity. Qed.

Example photofile_name_surrogate :
  calculate_itunes_photofile_name [56832] = inl UnicodeEncodeError.
Proof. vm_compute. reflexivity. Qed.

Lemma utf8_encode_app (s t : pystr) :
  utf8_encode (s ++ t) =
  match utf8_encode s, utf8_encode t with
  | Some a, Some b => Some (a ++ b)
  | _, _ => None
  end.
Proof.
  induction s as [|c s IH]; simpl.
  - destruct (utf8_encode t); reflexivity.
  - rewrite IH. destruct (utf8_char c), (utf8_encode s), (utf8_encode t);
      simpl; try reflexivity.
    now rewrite app_assoc.
Qed.

Lemma utf8_encode_prefix :
  utf8_encode camera_roll_prefix = Some camera_roll_prefix.
Proof. vm_compute. reflexivity. Qed.

Lemma be_bytes_length (n : nat) (x : Z) : length (Sha1.be_bytes n x) = n.
Proof. induction n; simpl; congruence. Qed.

Lemma digest_length (msg : list Z) : length (Sha1.digest msg) = 20%nat.
Proof.
  unfold Sha1.digest. destruct (Sha1.digest_state msg).
  rewrite !length_app, !be_bytes_length. reflexivity.
Qed.

Lemma hex_length (bs : list Z) :
  String.length (Sha1.hex bs) = (2 * length bs)%nat.
Proof. induction bs; simpl; [reflexivity | lia]. Qed.

Lemma hex_digit_lower (n : Z) : is_lower_hex (Sha1.hex_digit n) = true.
Proof. unfold Sha1.hex_digit. repeat case_match; reflexivity. Qed.

Lemma hex_lower (bs : list Z) :
  forallb is_lower_hex (list_ascii_of_string (Sha1.hex bs)) = true.
Proof.
  induction bs as [|b bs IH]; simpl; [reflexivity|].
  now rewrite !hex_digit_lower, IH.
Qed.

(** C7. For a relative path that UTF-8 encodes to the bytes [bs], the
    literal concatenation of "CameraRollDomain-Media/" and the path
    encodes to the prefix followed by [bs], unchanged, and
    [calculate_itunes_photofile_name] returns the SHA-1 hex digest of
    those bytes: forty characters, each a digit or a letter a to f.  The
    function is a pure function of the path, so equal paths give equal
    names and nothing else is touched. *)
Theorem photofile_name_is_sha1_of_utf8 (filepathinbackup : pystr) (bs : list Z) :
  utf8_encode filepathinbackup = Some bs →
  let literal := pystr_of_string "CameraRollDomain-Media/" in
  let name := Sha1.hexdigest (literal ++ bs) in
  utf8_encode (literal ++ filepathinbackup) = Some (literal ++ bs)
  ∧ calculate_itunes_photofile_name filepathinbackup = inr name
  ∧ String.length name = 40%nat
  ∧ forallb is_lower_hex (list_ascii_of_string name) = true.
Proof.
  intros Hbs literal name.
  assert (Henc : utf8_encode (literal ++ filepathinbackup) = Some (literal ++ bs)).
  { rewrite utf8_encode_app. change literal with camera_roll_prefix.
    now rewrite utf8_encode_prefix, Hbs. }
  repeat split.
  - exact Henc.
  - unfold calculate_itunes_photofile_name, encode_strict.
    change camera_roll_prefix with literal. now rewrite Henc.
  - unfold name, Sha1.hexdigest. now rewrite hex_length, digest_length.
  - apply hex_lower.
Qed.

Lemma photofile_name_is_sha1_of_utf8_witness :
  utf8_encode (pystr_of_string "DCIM/100APPLE/IMG_0001.JPG")
    = Some (pystr_of_string "DCIM/100APPLE/IMG_0001.JPG")
  ∧ calculate_itunes_photofile_name (pystr_of_string "DCIM/100APPLE/IMG_0001.JPG")
    = inr (Sha1.hexdigest
             (pystr_of_string "CameraRollDomain-Media/DCIM/100APPLE/IMG_0001.JPG")).
Proof.
  assert (H : utf8_encode (pystr_of_string "DCIM/100APPLE/IMG_0001.JPG")
              = Some (pystr_of_string "DCIM/100APPLE/IMG_0001.JPG"))
    by (vm_compute; reflexivity).
  split; [exact H|].
  exact (proj1 (proj2 (photofile_name_is_sha1_of_utf8 _ _ H))).
Defined.

(** A path that cannot be encoded raises, and no name is produced. *)
Lemma photofile_name_unencodable (filepathinbackup : pystr) :
  utf8_encode filepathinbackup = None →
  calculate_itunes_photofile_name filepathinbackup = inl UnicodeEncodeError.
Proof.
  intros Hnone. unfold calculate_itunes_photofile_name, encode_strict.
  rewrite utf8_encode_app, utf8_encode_prefix, Hnone. reflexivity.
Qed.

(** ** The catalog filter *)

Lemma selected_spec (taxonomy_target : string) (r : Row) :
  selected taxonomy_target r = true ↔
  Scene_Classification r = SceneLabel taxonomy_target
  ∧ ∃ c, Confidence r = Some c ∧ 5 < c.
Proof.
  unfold selected, scene_eq, confidence_gt.
  rewrite andb_true_iff. split.
  - intros [Hs Hc]. destruct (Scene_Classification r); [|discriminate].
    apply bool_decide_eq_true in Hs. subst. split; [reflexivity|].
    destruct (Confidence r) as [c|]; [|discriminate].
    exists c. split; [reflexivity|]. now apply Z.ltb_lt.
  - intros [Hs (c & Hc & Hlt)]. rewrite Hs, Hc. split.
    + now apply bool_decide_eq_true.
    + now apply Z.ltb_lt.
Qed.

(** C8. A record is in the filtered frame exactly when it is in the
    catalog, its scene classification is the target label and its
    confidence is above 5; of two firearm records with confidence 4 and
    6, only the second is kept. *)
Theorem filter_taxonomy_selects_exactly :
  (∀ (taxonomyquery : DataFrame) (taxonomy_target : string) (r : Row),
     In r (filter_taxonomy taxonomyquery taxonomy_target) ↔
     In r taxonomyquery
     ∧ Scene_Classification r = SceneLabel taxonomy_target
     ∧ ∃ c, Confidence r = Some c ∧ 5 < c)
  ∧ filter_taxonomy [photo "firearm" 4 "IMG_0004.JPG"; photo "firearm" 6 "IMG_0006.JPG"]
      "firearm" = [photo "firearm" 6 "IMG_0006.JPG"].
Proof.
  split; [|reflexivity].
  intros taxonomyquery taxonomy_target r. unfold filter_taxonomy.
  rewrite filter_In, selected_spec. reflexivity.
Qed.

(** The filter keeps the order of the catalog and is the empty frame
    when nothing matches. *)
Lemma filter_taxonomy_sublist (taxonomyquery : DataFrame) (taxonomy_target : string) :
  sublist (filter_taxonomy taxonomyquery taxonomy_target) taxonomyquery.
Proof.
  unfold filter_taxonomy. induction taxonomyquery as [|r l IH]; simpl.
  - constructor.
  - destruct (selected taxonomy_target r); now constructor.
Qed.

Example filter_taxonomy_threshold_is_strict :
  filter_taxonomy [photo "firearm" 5 "IMG_0005.JPG"] "firearm" = [].
Proof. reflexivity. Qed.

Example filter_taxonomy_nan_and_ids :
  filter_taxonomy
    [ {| Scene_Classification := SceneLabel "firearm"; Confidence := None;
         Path := PStr "DCIM"; Filename := PStr "a.jpg";
         Date_Created := EmptyString; Date_Added := EmptyString |};
      {| Scene_Classification := SceneId 4242; Confidence := Some 90;
         Path := PStr "DCIM"; Filename := PStr "b.jpg";
         Date_Created := EmptyString; Date_Added := EmptyString |} ]
    "firearm" = [].
Proof. reflexivity. Qed.

(** ** Running a computation *)

Lemma bind_run {W A B : Type} (m : M W A) (k : A → M W B) (w : W) :
  (m ≫= k) w =
  let x := m w in
  let y := k (value x) (world x) in
  (value y, world y, events x ++ events y).
Proof.
  unfold mbind, M_bind, value, world, events.
  destruct (m w) as [[a w1] l1]. cbn. destruct (k a w1) as [[b w2] l2].
  reflexivity.
Qed.

(** ** The extraction routine *)

Section RetrieveProperties.
Context {W : Type} {lib : BackupLib W}.
Import parse_ios_backup.

Lemma extract_loop_cons (backup : Backup) (dest ID : string)
    (rest : list string) (c : counters) (w : W) :
  extract_loop backup dest (ID :: rest) c w =
  let '(r, w1) := Backup_extract_file_id backup ID dest w in
  let '(c', w2, l) := extract_loop backup dest rest (record_outcome ID r c) w1 in
  (c', w2, EvExtract ID dest r :: l).
Proof.
  simpl. unfold mbind, M_bind, extract_file_id.
  destruct (Backup_extract_file_id backup ID dest w) as [r w1].
  destruct (extract_loop backup dest rest (record_outcome ID r c) w1) as [[c' w2] l].
  reflexivity.
Qed.

(** The loop calls [extract_file_id] once per ID, in the order of the
    list, whatever the calls return, and ends with the counters that
    the outcomes give. *)
Lemma extract_loop_trace (backup : Backup) (dest : string)
    (ids : list string) (c : counters) (w : W) :
  let x := extract_loop backup dest ids c w in
  (attempts (events x)).*1 = ids
  ∧ value x = replay (attempts (events x)) c
  ∧ calls (events x) = events x
  ∧ length (events x) = length ids.
Proof.
  revert c w. induction ids as [|ID rest IH]; intros c w.
  - cbn. auto.
  - cbv zeta. rewrite extract_loop_cons.
    destruct (Backup_extract_file_id backup ID dest w) as [r w1].
    specialize (IH (record_outcome ID r c) w1). cbv zeta in IH.
    destruct (extract_loop backup dest rest (record_outcome ID r c) w1)
      as [[c' w2] l].
    unfold events, value in *. cbn in *.
    destruct IH as (Hids & Hval & Hcalls & Hlen).
    repeat split; congruence.
Qed.

Lemma replay_counts (tried : list (string * result unit)) (c : counters) :
  extracted_count (replay tried c)
    = extracted_count c + Z.of_nat (length (List.filter extracted_ok tried))
  ∧ missing_entry_count (replay tried c)
    = missing_entry_count c + Z.of_nat (length (List.filter raised_missing tried))
  ∧ failed_ids (replay tried c)
    = failed_ids c ++ (List.filter raised tried).*1.
Proof.
  revert c. induction tried as [|[ID r] tried IH]; intros c.
  - cbn. rewrite app_nil_r. repeat split; lia.
  - change (replay ((ID, r) :: tried) c)
      with (replay tried (record_outcome ID r c)).
    destruct (IH (record_outcome ID r c)) as (He & Hm & Hf).
    rewrite He, Hm, Hf.
    destruct r as [[]|[]]; cbn [List.filter extracted_ok raised_missing raised
      is_MissingEntryError negb snd fst record_outcome extracted_count
      missing_entry_count failed_ids length fmap list_fmap];
      rewrite <- ?app_assoc; repeat split; try reflexivity; lia.
Qed.

Lemma filter_length_le {A : Type} (p : A → bool) (l : list A) :
  (length (List.filter p l) <= length l)%nat.
Proof. induction l as [|a l IH]; simpl; [lia|]. destruct (p a); simpl; lia. Qed.

Lemma retrieve_photos_opened (backup_path filedestination password : string)
    (ID : string) (rest : list string) (w w1 : W) (backup : Backup) :
  Backup_from_path backup_path password w = (inr backup, w1) →
  retrieve_photos backup_path filedestination password (ID :: rest) w =
  let '(c, w2, l) := extract_loop backup filedestination (ID :: rest) start w1 in
  ((extracted_count c, Some c), w2, EvFromPath backup_path password true :: l).
Proof.
  intros Hopen. unfold retrieve_photos, mbind, M_bind, from_path.
  rewrite Hopen.
  destruct (extract_loop backup filedestination (ID :: rest) start w1)
    as [[c w2] l].
  cbn. now rewrite app_nil_r.
Qed.

Lemma retrieve_photos_not_opened (backup_path filedestination password : string)
    (ID : string) (rest : list string) (w w1 : W) (e : PyExc) :
  Backup_from_path backup_path password w = (inl e, w1) →
  retrieve_photos backup_path filedestination password (ID :: rest) w =
  ((0, None), w1, [EvFromPath backup_path password false]).
Proof.
  intros Hopen. unfold retrieve_photos, mbind, M_bind, from_path.
  rewrite Hopen. reflexivity.
Qed.

Lemma retrieve_photos_from_backup_value
    (backup_path filedestination password : string)
    (list_of_fileIDs : list string) (w : W) :
  let x := retrieve_photos backup_path filedestination password list_of_fileIDs w in
  retrieve_photos_from_backup backup_path filedestination password
    list_of_fileIDs w = ((value x).1, world x, events x).
Proof.
  unfold retrieve_photos_from_backup, mbind, M_bind.
  destruct (retrieve_photos backup_path filedestination password
              list_of_fileIDs w) as [[v w1] l].
  cbn. now rewrite app_nil_r.
Qed.


(** C10. The routine returns the number of [extract_file_id] calls
    that returned without raising.  It asks for every file ID of the
    list, or for none when the backup does not open, so that count lies
    between 0 and the number of file IDs it was given; with no file ID
    it returns 0, calls no collaborator and leaves the world as it
    was. *)
Theorem retrieve_photos_from_backup_returns_success_count :
  (∀ (backup_path filedestination password : string)
     (list_of_fileIDs : list string) (w : W),
     let x := retrieve_photos_from_backup backup_path filedestination
                password list_of_fileIDs w in
     value x = Z.of_nat (length (List.filter extracted_ok (attempts (events x))))
     ∧ ((attempts (events x)).*1 = list_of_fileIDs ∨ attempts (events x) = [])
     ∧ 0 ≤ value x ≤ Z.of_nat (length list_of_fileIDs))
  ∧ (∀ (backup_path filedestination password : string) (w : W),
       retrieve_photos_from_backup backup_path filedestination password [] w
       = (0, w, [])).
Proof.
  split; [|reflexivity].
  intros backup_path filedestination password list_of_fileIDs w. cbv zeta.
  rewrite retrieve_photos_from_backup_value.
  destruct list_of_fileIDs as [|ID rest]; [cbn; auto with lia|].
  destruct (Backup_from_path backup_path password w) as [[e|backup] w1] eqn:Hopen.
  - rewrite (retrieve_photos_not_opened _ _ _ _ _ _ _ _ Hopen).
    cbn. split; [reflexivity|]. split; [now right | lia].
  - rewrite (retrieve_photos_opened _ _ _ _ _ _ _ _ Hopen).
    pose proof (extract_loop_trace backup filedestination (ID :: rest) start w1)
      as Htrace. cbv zeta in Htrace.
    destruct (extract_loop backup filedestination (ID :: rest) start w1)
      as [[c w2] l].
    unfold events, value in *. cbn [fst snd] in *.
    destruct Htrace as (Hids & Hval & _ & _).
    destruct (replay_counts (attempts l) start) as (He & _ & _).
    rewrite <- Hval in He. cbn [extracted_count start] in He.
    change (attempts (EvFromPath backup_path password true :: l))
      with (attempts l).
    pose proof (filter_length_le extracted_ok (attempts l)) as Hle.
    assert (Hlen : length (attempts l) = length (ID :: rest)).
    { rewrite <- Hids. now rewrite length_fmap. }
    split; [lia|]. split; [now left | lia].
Qed.
End RetrieveProperties.


Example retrieve_photos_mixed_batch :
  parse_ios_backup.retrieve_photos "backup" "out" "secret"
    ["a"; "gone"; "bad"; "b"] demo_world
  = ((2, Some {| parse_ios_backup.extracted_count := 2;
                 parse_ios_backup.failed_ids := ["gone"; "bad"];
                 parse_ios_backup.missing_entry_count := 1 |}),
     demo_world,
     [EvFromPath "backup" "secret" true;
      EvExtract "a" "out" (inr tt);
      EvExtract "gone" "out" (inl MissingEntryError);
      EvExtract "bad" "out" (inl (OtherError "corrupt record"));
      EvExtract "b" "out" (inr tt)]).
Proof. reflexivity. Qed.

(** The claim that an [IOError] stops the batch fails: the first ID
    meets a full disk, the second is extracted all the same, and the
    routine has tried as many IDs as it was given. *)
Lemma ioerror_does_not_abort_batch :
  let x := parse_ios_backup.retrieve_photos_from_backup "backup" "out" "secret"
             ["disk"; "a"] demo_world in
  x = (1, demo_world,
       [EvFromPath "backup" "secret" true;
        EvExtract "disk" "out" (inl IOError);
        EvExtract "a" "out" (inr tt)])
  ∧ ¬ (length (attempts (events x)) < length ["disk"; "a"])%nat.
Proof.
  intros x. split; [reflexivity|].
  intros Hlt. vm_compute in Hlt. lia.
Qed.

Section IOErrorProperties.
Context {W : Type} {lib : BackupLib W}.
Import parse_ios_backup.

(** C4, amended. An [IOError] raised by [extract_file_id] for one ID
    is caught with the other per-item exceptions: the ID joins the
    failed IDs, the two counts stay as they were, and the loop goes on
    to call [extract_file_id] for every ID that follows. *)
Theorem ioerror_is_recorded_and_loop_continues (backup : Backup)
    (filedestination ID : string) (rest : list string) (c : counters)
    (w w1 : W) :
  Backup_extract_file_id backup ID filedestination w = (inl IOError, w1) →
  let after :=
    extract_loop backup filedestination rest
      {| extracted_count := extracted_count c;
         failed_ids := failed_ids c ++ [ID];
         missing_entry_count := missing_entry_count c |} w1 in
  extract_loop backup filedestination (ID :: rest) c w
  = (value after, world after,
     EvExtract ID filedestination (inl IOError) :: events after)
  ∧ (attempts (events after)).*1 = rest.
Proof.
  intros Hio. cbv zeta. rewrite extract_loop_cons, Hio.
  cbn [record_outcome].
  pose proof (extract_loop_trace backup filedestination rest
    {| extracted_count := extracted_count c;
       failed_ids := failed_ids c ++ [ID];
       missing_entry_count := missing_entry_count c |} w1) as Htrace.
  cbv zeta in Htrace.
  destruct (extract_loop backup filedestination rest _ w1) as [[c' w2] l].
  split; [reflexivity|]. apply Htrace.
Qed.
End IOErrorProperties.

Lemma ioerror_is_recorded_and_loop_continues_witness :
  Backup_extract_file_id (BackupLib:=Scripted_backup) tt "disk" "out" demo_world
    = (inl IOError, demo_world)
  ∧ parse_ios_backup.extract_loop (lib:=Scripted_backup) tt "out" ["disk"; "a"; "b"]
      parse_ios_backup.start demo_world
    = ({| parse_ios_backup.extracted_count := 2;
          parse_ios_backup.failed_ids := ["disk"];
          parse_ios_backup.missing_entry_count := 0 |},
       demo_world,
       [EvExtract "disk" "out" (inl IOError);
        EvExtract "a" "out" (inr tt);
        EvExtract "b" "out" (inr tt)]).
Proof.
  split; [reflexivity|].
  exact (proj1 (ioerror_is_recorded_and_loop_continues (lib:=Scripted_backup) tt "out" "disk"
                  ["a"; "b"] parse_ios_backup.start demo_world demo_world
                  eq_refl)).
Defined.

(** ** The fallback blocks of parse_backup *)

Lemma and_then_run {W A B : Type} (m : M W (result A))
    (k : A → M W (result B)) (w : W) :
  and_then m k w =
  let x := m w in
  match value x with
  | inl e => (inl e, world x, events x)
  | inr a =>
      let y := k a (world x) in
      (value y, world y, events x ++ events y)
  end.
Proof.
  unfold and_then, mbind, M_bind, mret, M_ret, value, world, events.
  destruct (m w) as [[[e|a] w1] l1]; cbn [fst snd].
  - now rewrite app_nil_r.
  - now destruct (k a w1) as [[b w2] l2].
Qed.

Section BlockProperties.
Context {W : Type} {lib : BackupLib W}.
Variables (backup_path password : string) (status_callback : bool).

Lemma standard_found_nothing_spec (L : locals) :
  standard_found_nothing L = true ↔
  extracted_count L = Some 0 ∧ list_of_paths L ≠ [].
Proof.
  unfold standard_found_nothing.
  destruct (extracted_count L) as [n|]; [|split; [discriminate | intros [? _]; discriminate]].
  destruct (list_of_paths L) as [|ID rest].
  - rewrite andb_false_r. split; [discriminate | intros [_ ?]; congruence].
  - rewrite andb_true_r, Z.eqb_eq. split.
    + intros ->. split; [reflexivity | discriminate].
    + intros [Hn _]. congruence.
Qed.

(** The standard routine found something, or nothing was asked for:
    the three blocks send no message and raise nothing. *)
Lemma fallback_blocks_skipped (L : locals) (w : W) :
  standard_found_nothing L = false →
  fallback_blocks status_callback L w = (inr L, w, []).
Proof.
  intros Hno. unfold fallback_blocks, and_then, direct_block, manifest_block,
    failure_block, mbind, M_bind, mret, M_ret.
  rewrite Hno. cbn. rewrite Hno. cbn. rewrite Hno. reflexivity.
Qed.

(** The standard routine found nothing of a non-empty request: the
    first block sends its message and raises at the look-up of the
    direct extractor, and the two blocks after it are not run. *)
Lemma fallback_blocks_run (L : locals) (w : W) :
  standard_found_nothing L = true →
  fallback_blocks status_callback L w
  = (inl AttributeError, w,
     if status_callback
     then [EvStatus "Standard extraction failed. Trying direct file extraction..."]
     else []).
Proof.
  intros Hyes. unfold fallback_blocks. rewrite and_then_run. cbv zeta.
  unfold direct_block. rewrite Hyes.
  unfold status, emit, mbind, M_bind, mret, M_ret.
  destruct status_callback; reflexivity.
Qed.

Lemma extraction_blocks_run (photo_folder : string) (fileIDs : list string)
    (df : option DataFrame) (L : locals) (w : W) :
  let s := parse_ios_backup.retrieve_photos_from_backup backup_path photo_folder
             password fileIDs w in
  let L0 := {| extracted_count := Some (value s);
               list_of_paths := fileIDs;
               filtered_df := df;
               photo_output_destination := Some photo_folder;
               extracted_photos_path := extracted_photos_path L |} in
  let f := fallback_blocks status_callback L0 (world s) in
  extraction_blocks backup_path password status_callback photo_folder fileIDs df L w
  = (value f, world f, events s ++ events f).
Proof.
  cbv zeta. unfold extraction_blocks, standard_block.
  rewrite bind_run. cbv beta zeta. rewrite bind_run. cbv beta zeta.
  unfold mret, M_ret, value, world, events. cbn [fst snd].
  now rewrite app_nil_r.
Qed.

Lemma extract_loop_writes_nothing (backup : Backup) (dest : string)
    (ids : list string) (c : parse_ios_backup.counters) (w : W) :
  List.filter is_write
    (events (parse_ios_backup.extract_loop backup dest ids c w)) = [].
Proof.
  revert c w. induction ids as [|ID rest IH]; intros c w; [reflexivity|].
  rewrite extract_loop_cons.
  destruct (Backup_extract_file_id backup ID dest w) as [r w1].
  specialize (IH (parse_ios_backup.record_outcome ID r c) w1).
  destruct (parse_ios_backup.extract_loop backup dest rest _ w1) as [[c' w2] l].
  exact IH.
Qed.

Lemma retrieve_writes_nothing (dest : string) (ids : list string) (w : W) :
  List.filter is_write
    (events (parse_ios_backup.retrieve_photos_from_backup backup_path dest
               password ids w)) = [].
Proof.
  rewrite retrieve_photos_from_backup_value. unfold events. cbn [snd].
  destruct ids as [|ID rest]; [reflexivity|].
  destruct (Backup_from_path backup_path password w) as [[e|backup] w1] eqn:Hopen.
  - now rewrite (retrieve_photos_not_opened _ _ _ _ _ _ _ _ Hopen).
  - rewrite (retrieve_photos_opened _ _ _ _ _ _ _ _ Hopen).
    pose proof (extract_loop_writes_nothing backup dest (ID :: rest)
                  parse_ios_backup.start w1) as Hloop.
    destruct (parse_ios_backup.extract_loop backup dest (ID :: rest) _ w1)
      as [[c w2] l].
    exact Hloop.
Qed.

(** C1, at every failing input.  When the standard routine extracted
    none of a list of file IDs that is not empty, the chain does not
    go on to the direct and the manifest strategy: after the message
    that announces the direct extraction, the look-up of
    [parse_ios_backup.extract_photos_direct] raises [AttributeError],
    which leaves [parse_backup]; no strategy is tried after the
    standard one and the message of the manifest strategy is never
    sent. *)
Theorem direct_fallback_raises_attribute_error (photo_folder : string)
    (fileIDs : list string) (df : option DataFrame) (L : locals) (w : W) :
  let s := parse_ios_backup.retrieve_photos_from_backup backup_path photo_folder
             password fileIDs w in
  value s = 0 → fileIDs ≠ [] →
  extraction_blocks backup_path password status_callback photo_folder fileIDs df L w
  = (inl AttributeError, world s,
     events s
     ++ if status_callback
        then [EvStatus "Standard extraction failed. Trying direct file extraction..."]
        else []).
Proof.
  cbv zeta. intros Hzero Hne. rewrite extraction_blocks_run. cbv zeta.
  rewrite fallback_blocks_run; [reflexivity|].
  apply standard_found_nothing_spec. cbn. now rewrite Hzero.
Qed.

(** C3, on every input.  The failure report is never made.  A run
    of the blocks in which the standard routine extracted none of a
    non-empty list ends in the [AttributeError] of the direct look-up;
    no run reaches the call of [report_photo_extraction_failure] under
    its guard, which would raise [NameError], as the report block does
    when it is run alone; and no run writes a file. *)
Theorem failure_report_is_never_made (photo_folder : string)
    (fileIDs : list string) (df : option DataFrame) (L : locals) (w : W) :
  let s := parse_ios_backup.retrieve_photos_from_backup backup_path photo_folder
             password fileIDs w in
  let x := extraction_blocks backup_path password status_callback photo_folder
             fileIDs df L w in
  (value s = 0 ∧ fileIDs ≠ [] → value x = inl AttributeError)
  ∧ value x ≠ inl NameError
  ∧ List.filter is_write (events x) = []
  ∧ ∀ (L' : locals) (w' : W),
      standard_found_nothing L' = true →
      failure_block (W:=W) L' w' = (inl NameError, w', []).
Proof.
  cbv zeta. rewrite extraction_blocks_run. cbv zeta.
  set (s := parse_ios_backup.retrieve_photos_from_backup backup_path
              photo_folder password fileIDs w).
  set (L0 := {| extracted_count := Some (value s); list_of_paths := fileIDs;
                filtered_df := df; photo_output_destination := Some photo_folder;
                extracted_photos_path := extracted_photos_path L |}).
  assert (Hcond : standard_found_nothing L0 = true ↔ value s = 0 ∧ fileIDs ≠ []).
  { rewrite standard_found_nothing_spec. cbn. split.
    - intros [[= ->] ?]. auto.
    - intros [-> ?]. auto. }
  pose proof (retrieve_writes_nothing photo_folder fileIDs w) as Hstd.
  fold s in Hstd.
  destruct (standard_found_nothing L0) eqn:Hsfn.
  - rewrite (fallback_blocks_run L0 (world s) Hsfn).
    unfold value, events. cbn [fst snd].
    split; [reflexivity|]. split; [discriminate|]. split.
    + rewrite List.filter_app. fold (events s). rewrite Hstd.
      now destruct status_callback.
    + intros L' w' Hyes. unfold failure_block. now rewrite Hyes.
  - rewrite (fallback_blocks_skipped L0 (world s) Hsfn).
    unfold value, events. cbn [fst snd].
    split; [intros Hyes; apply Hcond in Hyes; discriminate|].
    split; [discriminate|]. split.
    + rewrite app_nil_r. exact Hstd.
    + intros L' w' Hyes. unfold failure_block. now rewrite Hyes.
Qed.
End BlockProperties.

Lemma direct_fallback_raises_attribute_error_witness :
  value (parse_ios_backup.retrieve_photos_from_backup "backup"
           "out/Photos_firearm" "secret" ["gone"] demo_world) = 0
  ∧ ["gone"] ≠ []
  ∧ extraction_blocks "backup" "secret" true "out/Photos_firearm" ["gone"]
      (Some [photo "firearm" 60 "IMG_0001.JPG"]) no_locals demo_world
    = (inl AttributeError, demo_world,
       [EvFromPath "backup" "secret" true;
        EvExtract "gone" "out/Photos_firearm" (inl MissingEntryError);
        EvStatus "Standard extraction failed. Trying direct file extraction..."]).
Proof.
  split; [reflexivity|]. split; [discriminate|].
  exact (direct_fallback_raises_attribute_error (lib:=Scripted_backup)
           "backup" "secret" true "out/Photos_firearm" ["gone"]
           (Some [photo "firearm" 60 "IMG_0001.JPG"]) no_locals demo_world
           eq_refl ltac:(discriminate)).
Defined.

Example standard_success_stops_the_chain :
  extraction_blocks "backup" "secret" true "out/Photos_firearm"
    ["gone"; "a"] (Some [photo "firearm" 60 "IMG_0001.JPG"]) no_locals demo_world
  = (inr {| extracted_count := Some 1; list_of_paths := ["gone"; "a"];
            filtered_df := Some [photo "firearm" 60 "IMG_0001.JPG"];
            photo_output_destination := Some "out/Photos_firearm";
            extracted_photos_path := None |},
     demo_world,
     [EvFromPath "backup" "secret" true;
      EvExtract "gone" "out/Photos_firearm" (inl MissingEntryError);
      EvExtract "a" "out/Photos_firearm" (inr tt)]).
Proof. vm_compute. reflexivity. Qed.

Example empty_request_calls_nothing :
  extraction_blocks "backup" "secret" true "out/Photos_firearm" [] None
    no_locals demo_world
  = (inr {| extracted_count := Some 0; list_of_paths := []; filtered_df := None;
            photo_output_destination := Some "out/Photos_firearm";
            extracted_photos_path := None |}, demo_world, []).
Proof. vm_compute. reflexivity. Qed.

(** ** The recovery report *)

Lemma recovery_status_cases (present : gset string) (row : Row) :
  match py_in (Filename row) present with
  | inr true => recovery_status present row = "Recovered"
  | inr false => recovery_status present row = "Missing"
  | inl _ => recovery_status present row = "Error"
  end.
Proof.
  unfold recovery_status. destruct (py_in (Filename row) present) as [e|[]];
    reflexivity.
Qed.

Lemma py_in_true (present : gset string) (x : PyVal) :
  py_in x present = inr true ↔ ∃ f, x = PStr f ∧ f ∈ present.
Proof.
  destruct x as [s| |z|]; unfold py_in; split.
  - intros Hin. exists s. split; [reflexivity|].
    assert (Hb : bool_decide (s ∈ present) = true) by congruence.
    exact (bool_decide_eq_true_1 _ Hb).
  - intros (f & Hf & Hin). injection Hf as ->.
    now rewrite (bool_decide_eq_true_2 _ Hin).
  - discriminate.
  - intros (f & Hf & _). discriminate.
  - discriminate.
  - intros (f & Hf & _). discriminate.
  - discriminate.
  - intros (f & Hf & _). discriminate.
Qed.

Lemma recovery_status_recovered (present : gset string) (row : Row) :
  recovery_status present row = "Recovered" ↔
  ∃ f, Filename row = PStr f ∧ f ∈ present.
Proof.
  rewrite <- py_in_true. unfold recovery_status.
  destruct (py_in (Filename row) present) as [e|[]]; split;
    try discriminate; reflexivity.
Qed.

Lemma apply_recovery_status_rows (present : gset string) (df : DataFrame) :
  (apply_recovery_status present df).*1 = df.
Proof.
  unfold apply_recovery_status. induction df as [|row df IH]; cbn; [reflexivity|].
  now f_equal.
Qed.

Lemma apply_recovery_status_In (present : gset string) (df : DataFrame)
    (row : Row) (st : string) :
  In (row, st) (apply_recovery_status present df) →
  In row df ∧ st = recovery_status present row.
Proof.
  unfold apply_recovery_status. rewrite in_map_iff.
  intros (r & Heq & Hin). injection Heq as -> ->. auto.
Qed.

(** The handler of the check returns "Error", a status of its own: a
    file name that did not hash would be neither "Missing" nor
    "Recovered".  No cell of the catalog is such a name. *)
Example recovery_status_error_is_not_missing :
  let present : gset string := list_to_set ["IMG_0001.JPG"; "IMG_0003.JPG"] in
  py_in (Filename odd_photo) present = inl TypeError
  ∧ apply_recovery_status present [photo "firearm" 60 "IMG_0001.JPG"; odd_photo]
    = [(photo "firearm" 60 "IMG_0001.JPG", "Recovered"); (odd_photo, "Error")]
  ∧ recovery_status present odd_photo ≠ "Missing"
  ∧ recovery_status present odd_photo ≠ "Recovered".
Proof. vm_compute. repeat split; discriminate. Qed.

(** The status pass never raises: it gives every record of the
    request one status, which is "Recovered", "Missing" or "Error"; a
    record is marked "Error" exactly when the check of its file name
    against the snapshot raised, and "Missing" exactly when the check
    returned false. *)
Lemma recovery_status_captures_exceptions (present : gset string)
    (df : DataFrame) :
  let frame := apply_recovery_status present df in
  frame.*1 = df
  ∧ ∀ (row : Row) (st : string), In (row, st) frame →
      (st = "Recovered" ∨ st = "Missing" ∨ st = "Error")
      ∧ (st = "Error" ↔ ∃ e, py_in (Filename row) present = inl e)
      ∧ (st = "Missing" ↔ py_in (Filename row) present = inr false).
Proof.
  cbv zeta. split; [apply apply_recovery_status_rows|].
  intros row st Hin. apply apply_recovery_status_In in Hin as [_ ->].
  pose proof (recovery_status_cases present row) as Hcase.
  destruct (py_in (Filename row) present) as [e|[]]; rewrite Hcase;
    repeat split; eauto; try discriminate;
    try (intros [? ?]; discriminate).
Qed.




Lemma all_str_of_strs (xs : list PyVal) :
  forallb is_str xs = true → all_str xs = Some (map str_of xs).
Proof.
  induction xs as [|x xs IH]; cbn; [reflexivity|].
  intros [Hx Hxs]%andb_true_iff. destruct x; try discriminate.
  now rewrite (IH Hxs).
Qed.

Lemma strs_of_strs (xs : list PyVal) :
  forallb is_str xs = true → xs = PStr <$> map str_of xs.
Proof.
  induction xs as [|x xs IH]; cbn; [reflexivity|].
  intros [Hx Hxs]%andb_true_iff. destruct x; try discriminate.
  cbn. f_equal. now apply IH.
Qed.

Lemma forallb_take {A : Type} (p : A → bool) (n : nat) (l : list A) :
  forallb p l = true → forallb p (take n l) = true.
Proof.
  revert n. induction l as [|a l IH]; intros [|n]; cbn; auto.
  intros [Ha Hl]%andb_true_iff. rewrite Ha. cbn. auto.
Qed.

Lemma py_join_strs (sep : string) (xs : list PyVal) :
  forallb is_str xs = true → py_join sep xs = inr (join sep (map str_of xs)).
Proof. intros Hxs. unfold py_join. now rewrite (all_str_of_strs _ Hxs). Qed.

(** Settles the comparisons of two status literals in the goal. *)
Ltac decide_status :=
  repeat match goal with
  | |- context [bool_decide (?a = ?b)] =>
      first [ rewrite (bool_decide_eq_true_2 (a = b)) by reflexivity
            | rewrite (bool_decide_eq_false_2 (a = b)) by discriminate ]
  end.

Section StatusCounts.
Variable present : gset string.

Lemma has_status_apply (st : string) (row : Row) :
  has_status st (row, recovery_status present row)
  = bool_decide (recovery_status present row = st).
Proof. reflexivity. Qed.

(** With file names that are text, no record is marked "Error": the
    records split into the recovered and the missing ones. *)
Lemma missing_files_are_str (df : DataFrame) :
  filenames_are_str df = true →
  forallb is_str (missing_files_of (apply_recovery_status present df)) = true
  ∧ count_status "Recovered" (apply_recovery_status present df)
    + Z.of_nat (length (missing_files_of (apply_recovery_status present df)))
    = Z.of_nat (length df).
Proof.
  unfold filenames_are_str, missing_files_of, count_status, apply_recovery_status.
  induction df as [|row df IH]; [cbn; auto|].
  cbn [forallb map List.filter]. intros [Hrow Hdf]%andb_true_iff.
  destruct (IH Hdf) as [IHstr IHcount]. rewrite !has_status_apply.
  pose proof (recovery_status_cases present row) as Hcase.
  destruct (Filename row) as [f| | |] eqn:Hname; try discriminate.
  unfold py_in in Hcase.
  destruct (bool_decide (f ∈ present)); rewrite Hcase; decide_status;
    cbn [map forallb length fst]; rewrite ?Hname; cbn [is_str andb];
    split; auto; lia.
Qed.
End StatusCounts.

Lemma missing_line_strs (xs : list PyVal) :
  forallb is_str xs = true →
  missing_line xs =
  inr (if (length xs <=? 10)%nat
       then "Missing files: " +:+ join ", " (map str_of xs) +:+ nl
       else "Missing files: " +:+ join ", " (take 10 (map str_of xs))
            +:+ "... (and " +:+ pretty (Z.of_nat (length xs) - 10) +:+ " more)"
            +:+ nl).
Proof.
  intros Hxs. unfold missing_line. destruct (length xs <=? 10)%nat.
  - now rewrite (py_join_strs _ _ Hxs).
  - rewrite (py_join_strs _ _ (forallb_take _ 10 _ Hxs)).
    now rewrite <- firstn_map.
Qed.

(** With file names that are text, the summary gains one line for
    the missing records: past ten of them, the first ten names joined
    by commas, then "... (and N more)" with N the number of missing
    records less ten; up to ten, all the names and no suffix; none, no
    line.  The frame that is returned still marks every missing record,
    so the whole list of missing names is read from it. *)
Lemma missing_files_summary (present : gset string) (df : DataFrame)
    (extraction_summary : string) :
  filenames_are_str df = true →
  let frame := apply_recovery_status present df in
  let names := missing_names frame in
  let n := Z.of_nat (length names) in
  let line :=
    if 10 <? n then
      "Missing files: " +:+ join ", " (take 10 names)
      +:+ "... (and " +:+ pretty (n - 10) +:+ " more)" +:+ nl
    else if 0 <? n then "Missing files: " +:+ join ", " names +:+ nl
    else EmptyString in
  ∃ recovered_count total_attempted : Z,
    recovery_summary present df extraction_summary
    = inr (Reconciled frame recovered_count total_attempted n
             (extraction_summary +:+ line +:+ nl +:+ "EXTRACTION DETAILS" +:+ nl))
    ∧ missing_files_of frame = PStr <$> names.
Proof.
  intros Hstr. cbv zeta.
  destruct (missing_files_are_str present df Hstr) as [Hmiss Hcount].
  set (frame := apply_recovery_status present df) in *.
  assert (Hlen : length (missing_names frame) = length (missing_files_of frame))
    by (unfold missing_names; apply length_map).
  assert (Hframe : length frame = length df)
    by (unfold frame, apply_recovery_status; apply length_map).
  exists (count_status "Recovered" frame), (Z.of_nat (length frame)).
  split; [|now apply strs_of_strs].
  unfold recovery_summary. fold frame.
  replace (Z.of_nat (length frame) - count_status "Recovered" frame)
    with (Z.of_nat (length (missing_names frame))) by lia.
  rewrite (missing_line_strs _ Hmiss). fold (missing_names frame). rewrite <- Hlen.
  destruct (0 <? Z.of_nat (length (missing_names frame))) eqn:Hpos.
  - destruct (10 <? Z.of_nat (length (missing_names frame))) eqn:Hten.
    + apply Z.ltb_lt in Hten.
      rewrite (proj2 (Nat.leb_gt _ _)) by lia. reflexivity.
    + apply Z.ltb_ge in Hten.
      rewrite (proj2 (Nat.leb_le _ _)) by lia. reflexivity.
  - apply Z.ltb_ge in Hpos.
    rewrite (proj2 (Z.ltb_ge _ _)) by lia. reflexivity.
Qed.

Example missing_files_summary_of_fourteen :
  filenames_are_str fourteen_photos = true
  ∧ ∃ recovered_count total_attempted : Z,
      recovery_summary (list_to_set ["IMG_0001.JPG"; "IMG_0003.JPG"])
        fourteen_photos EmptyString
      = inr (Reconciled
               (map (λ row, (row, "Missing"%string)) fourteen_photos)
               recovered_count total_attempted 14
               ("Missing files: P01, P02, P03, P04, P05, P06, P07, P08, P09, P10... (and 4 more)"
                +:+ nl +:+ nl +:+ "EXTRACTION DETAILS" +:+ nl)).
Proof.
  split; [reflexivity|].
  destruct (missing_files_summary (list_to_set ["IMG_0001.JPG"; "IMG_0003.JPG"])
              fourteen_photos EmptyString eq_refl)
    as (recovered_count & total_attempted & Hsum & _).
  exists recovered_count, total_attempted. rewrite Hsum.
  vm_compute. reflexivity.
Qed.

Example missing_files_summary_short :
  recovery_summary (list_to_set ["IMG_0001.JPG"; "IMG_0003.JPG"])
    (map (photo "firearm" 60) ["IMG_0001.JPG"; "IMG_0002.JPG"; "IMG_0003.JPG"; "IMG_0004.JPG"])
    EmptyString
  = inr (Reconciled
           [(photo "firearm" 60 "IMG_0001.JPG", "Recovered");
            (photo "firearm" 60 "IMG_0002.JPG", "Missing");
            (photo "firearm" 60 "IMG_0003.JPG", "Recovered");
            (photo "firearm" 60 "IMG_0004.JPG", "Missing")]
           2 4 2
           ("Missing files: IMG_0002.JPG, IMG_0004.JPG"
            +:+ nl +:+ nl +:+ "EXTRACTION DETAILS" +:+ nl)).
Proof. vm_compute. reflexivity. Qed.

Section ReconciliationProperties.
Context {W : Type} {os : OsLib W}.

(** With a photo folder that exists and a filtered frame, the block
    asks whether the folder exists, lists it once, and works from
    that list alone. *)
Lemma reconcile_block_run (dest : string) (df : DataFrame) (w : W) :
  dest ≠ EmptyString →
  os_path_exists dest w = true →
  reconcile_block (Some dest) (Some df) w
  = (Some (reconcile (list_to_set (os_listdir dest w)) df),
     w, [EvExists dest true; EvListdir dest (os_listdir dest w)]).
Proof.
  intros Hdest Hexists. destruct dest as [|a dest]; [congruence|].
  unfold reconcile_block, mbind, M_bind, mret, M_ret, path_exists, listdir.
  rewrite Hexists. reflexivity.
Qed.

(** C5. With a photo folder that exists, whatever the file names of
    the request are, the reconciliation lists the folder once and
    takes the set of the listed names; it marks a record "Recovered"
    exactly when its file name is one of them; the recovered count is
    the number of records so marked, the total is the number of
    records of the request, and the missing count is the total less
    the recovered count. *)
Theorem reconciliation_lists_once_and_counts (dest : string) (df : DataFrame)
    (w : W) :
  dest ≠ EmptyString →
  os_path_exists dest w = true →
  let x := reconcile_block (Some dest) (Some df) w in
  let present : gset string := list_to_set (os_listdir dest w) in
  ∃ (frame : StatusFrame) (recovered_count total_attempted missing_count : Z),
    value x = Some (frame, recovered_count, total_attempted, missing_count)
    ∧ events x = [EvExists dest true; EvListdir dest (os_listdir dest w)]
    ∧ length (List.filter is_listdir (events x)) = 1%nat
    ∧ frame.*1 = df
    ∧ (∀ (row : Row) (st : string), In (row, st) frame →
         (st = "Recovered" ↔ ∃ f, Filename row = PStr f ∧ f ∈ present))
    ∧ recovered_count
      = Z.of_nat (length (List.filter (λ r, bool_decide (r.2 = "Recovered")) frame))
    ∧ total_attempted = Z.of_nat (length df)
    ∧ missing_count = total_attempted - recovered_count.
Proof.
  intros Hdest Hexists. cbv zeta.
  rewrite (reconcile_block_run _ _ _ Hdest Hexists).
  set (present := list_to_set (os_listdir dest w) : gset string).
  eexists _, _, _, _. split; [reflexivity|].
  split; [reflexivity|]. split; [reflexivity|].
  split; [apply apply_recovery_status_rows|].
  split; [intros row st [_ ->]%apply_recovery_status_In;
          apply recovery_status_recovered|].
  split; [reflexivity|]. split; [|reflexivity].
  unfold apply_recovery_status. now rewrite length_map.
Qed.
End ReconciliationProperties.

Lemma reconciliation_lists_once_and_counts_witness :
  "out/Photos_firearm" ≠ EmptyString
  ∧ os_path_exists "out/Photos_firearm" demo_world = true
  ∧ ∃ frame : StatusFrame,
      reconcile_block (Some "out/Photos_firearm")
        (Some (null_photo :: twelve_photos)) demo_world
      = (Some (frame, 2, 13, 11), demo_world,
         [EvExists "out/Photos_firearm" true;
          EvListdir "out/Photos_firearm" ["IMG_0001.JPG"; "IMG_0003.JPG"]]).
Proof.
  split; [discriminate|]. split; [reflexivity|].
  destruct (reconciliation_lists_once_and_counts (os:=Scripted_os)
              "out/Photos_firearm" (null_photo :: twelve_photos) demo_world)
    as (frame & rc & ta & mc & Hval & _); [discriminate | reflexivity |].
  exists frame.
  assert (Hnum : rc = 2 ∧ ta = 13 ∧ mc = 11).
  { pose proof Hval as Hval'. vm_compute in Hval'.
    injection Hval' as _ <- <- <-. auto. }
  destruct Hnum as (-> & -> & ->).
  transitivity (value (reconcile_block (Some "out/Photos_firearm")
                         (Some (null_photo :: twelve_photos)) demo_world),
                demo_world,
                [EvExists "out/Photos_firearm" true;
                 EvListdir "out/Photos_firearm" ["IMG_0001.JPG"; "IMG_0003.JPG"]]).
  - vm_compute. reflexivity.
  - do 2 f_equal. exact Hval.
Defined.

(** C9, at the failing input.  A request of two records, one in the
    folder and one whose file name is NULL in the catalog: the record
    without a name is marked "Missing", its name is the one missing
    file name, and joining the names raises [TypeError]; the block ends
    there, with no summary and no report written. *)
Theorem null_file_name_aborts_the_summary :
  let df := [photo "firearm" 60 "IMG_0001.JPG"; null_photo] in
  let x := recovery_block (tz:=Scripted_timezone)
             "out/Reports/Photo_Report_firearm.csv" [] None true
             (Some "out/Photos_firearm") (Some df) EmptyString demo_world in
  missing_files_of
    (apply_recovery_status (list_to_set ["IMG_0001.JPG"; "IMG_0003.JPG"]) df)
  = [PNone]
  ∧ recovery_summary (list_to_set ["IMG_0001.JPG"; "IMG_0003.JPG"]) df EmptyString
    = inl TypeError
  ∧ x = (inl TypeError, demo_world,
         [EvExists "out/Photos_firearm" true;
          EvListdir "out/Photos_firearm" ["IMG_0001.JPG"; "IMG_0003.JPG"]]).
Proof. vm_compute. repeat split; reflexivity. Qed.

(** * Further properties *)

(** ** Report headers *)

Lemma append_assoc (a b c : string) : (a +:+ b) +:+ c = a +:+ b +:+ c.
Proof.
  induction a as [|x a IH]; [reflexivity | exact (f_equal (String x) IH)].
Qed.

Lemma append_empty_r (a : string) : a +:+ EmptyString = a.
Proof.
  induction a as [|x a IH]; [reflexivity | exact (f_equal (String x) IH)].
Qed.

Lemma add_device_lines_app (a b : string) (device_info : device_info_items) :
  add_device_lines (a +:+ b) device_info = a +:+ add_device_lines b device_info.
Proof.
  unfold add_device_lines. revert b.
  induction device_info as [|[k v] rest IH]; intros b; cbn; [reflexivity|].
  destruct v as [|c v]; [apply IH|].
  rewrite <- IH. now rewrite append_assoc.
Qed.

Lemma add_device_lines_filter (header : string) (device_info : device_info_items) :
  add_device_lines header device_info
  = header +:+ foldr String.append EmptyString
                 (map device_line (List.filter (λ item, nonempty item.2) device_info)).
Proof.
  revert header.
  induction device_info as [|[k v] rest IH]; intros header.
  - cbn. now rewrite append_empty_r.
  - change (add_device_lines header ((k, v) :: rest))
      with (add_device_lines
              (match v with
               | EmptyString => header
               | _ => header +:+ k +:+ ": " +:+ v +:+ nl
               end) rest).
    cbn [List.filter snd]. destruct v as [|c v]; cbn [nonempty].
    + apply IH.
    + rewrite IH. cbn [map foldr]. unfold device_line at 2. cbn [fst snd].
      now rewrite !append_assoc.
Qed.

Lemma filter_twice {A : Type} (p : A → bool) (l : list A) :
  List.filter p (List.filter p l) = List.filter p l.
Proof.
  induction l as [|a l IH]; [reflexivity|].
  cbn [List.filter]. destruct (p a) eqn:Ha; [|exact IH].
  cbn [List.filter]. rewrite Ha. now f_equal.
Qed.

(** X1. The header of a saved report is its title, a blank line and the
    header that [format_device_info_header] makes of the same device
    information; the header of the photo report is that of a saved
    report entitled PHOTO ANALYSIS REPORT. *)
Theorem report_headers_agree (report_title : string)
    (device_info : device_info_items) :
  save_report_device_header report_title device_info
  = report_title +:+ nl +:+ nl +:+ format_device_info_header device_info
  ∧ photo_report_device_header device_info
    = save_report_device_header "PHOTO ANALYSIS REPORT" device_info.
Proof.
  split; [|reflexivity].
  unfold save_report_device_header, format_device_info_header.
  rewrite !add_device_lines_app. now rewrite !append_assoc.
Qed.

(** X2. The header lists the items that have a value, one per line and in
    the order of the dictionary, and nothing of an item whose value is
    empty: dropping those items beforehand gives the same header. *)
Theorem device_header_skips_empty_values (device_info : device_info_items) :
  format_device_info_header device_info
  = "DEVICE INFORMATION" +:+ nl
    +:+ foldr String.append EmptyString
          (map device_line (List.filter (λ item, nonempty item.2) device_info))
    +:+ nl
  ∧ format_device_info_header (List.filter (λ item, nonempty item.2) device_info)
    = format_device_info_header device_info.
Proof.
  assert (Hform : ∀ info, format_device_info_header info
            = "DEVICE INFORMATION" +:+ nl
              +:+ foldr String.append EmptyString
                    (map device_line (List.filter (λ item, nonempty item.2) info))
              +:+ nl).
  { intros info. unfold format_device_info_header.
    rewrite add_device_lines_filter. now rewrite !append_assoc. }
  split; [apply Hform|].
  rewrite (Hform (List.filter _ device_info)), (Hform device_info).
  now rewrite filter_twice.
Qed.

Example device_header_of_a_backup :
  format_device_info_header
    [("Device Name", "Ada's iPhone"); ("Device Model", "iPhone 12");
     ("Phone Number", EmptyString); ("IMEI", EmptyString);
     ("Serial Number", "F17XXXXXXXXX"); ("iOS Version", "17.4")]
  = "DEVICE INFORMATION" +:+ nl +:+ "Device Name: Ada's iPhone" +:+ nl
    +:+ "Device Model: iPhone 12" +:+ nl +:+ "Serial Number: F17XXXXXXXXX" +:+ nl
    +:+ "iOS Version: 17.4" +:+ nl +:+ nl.
Proof. reflexivity. Qed.

(** ** Records for display *)

Section RecordProperties.
Context {Cell : Type}.
Variable blank : Cell.

Lemma fill_record_dom (i : nat) (headers : list string) (row : list Cell)
    (record : gmap string Cell) :
  dom (fill_record blank i headers row record) = list_to_set headers ∪ dom record.
Proof.
  revert i record. induction headers as [|h rest IH]; intros i record; cbn.
  - set_solver.
  - rewrite IH, dom_insert_L. set_solver.
Qed.

Lemma fill_record_other (i : nat) (headers : list string) (row : list Cell)
    (record : gmap string Cell) (h : string) :
  h ∉ headers →
  fill_record blank i headers row record !! h = record !! h.
Proof.
  revert i record. induction headers as [|h' rest IH]; intros i record Hnot; cbn.
  - reflexivity.
  - rewrite IH by set_solver. apply lookup_insert_ne. set_solver.
Qed.

(** The cell under a header is that of the last column of that name. *)
Lemma fill_record_lookup (i : nat) (headers : list string) (row : list Cell)
    (record : gmap string Cell) (k : nat) (h : string) :
  headers !! k = Some h →
  h ∉ drop (S k) headers →
  fill_record blank i headers row record !! h
  = Some (default blank (row !! (i + k)%nat)).
Proof.
  revert i record k. induction headers as [|h' rest IH]; intros i record k Hk Hlast.
  - discriminate.
  - destruct k as [|k]; cbn in Hk, Hlast |- *.
    + injection Hk as ->. rewrite fill_record_other by exact Hlast.
      rewrite lookup_insert_eq. now rewrite Nat.add_0_r.
    + rewrite (IH (S i) _ k Hk Hlast). do 3 f_equal. lia.
Qed.

(** X3. The record that the header loop builds for a row has one
    entry per header name, whatever the length of the row: under a
    header stands the cell at the place of the last column of that
    name, or the blank where the row has no cell at that place. *)
Theorem record_has_every_header (headers : list string) (row : list Cell) :
  dom (record_of blank headers row) = list_to_set headers
  ∧ ∀ (k : nat) (h : string),
      headers !! k = Some h → h ∉ drop (S k) headers →
      record_of blank headers row !! h = Some (default blank (row !! k)).
Proof.
  unfold record_of. split.
  - rewrite fill_record_dom. set_solver.
  - intros k h Hk Hlast. now rewrite (fill_record_lookup 0 _ _ _ k h Hk Hlast).
Qed.

(** X4. The records written out key by key for calls and contacts are the
    records that the header loop builds from their keys, so a call has
    its six entries and a contact its eight whatever the length of the
    row, an empty row included. *)
Theorem fixed_key_records_agree (row : list Cell) :
  call_record blank row = record_of blank call_keys row
  ∧ contact_record blank row = record_of blank contact_keys row
  ∧ dom (call_record blank row) = list_to_set call_keys
  ∧ dom (contact_record blank row) = list_to_set contact_keys.
Proof.
  assert (Hcall : call_record blank row = record_of blank call_keys row)
    by reflexivity.
  assert (Hcontact : contact_record blank row = record_of blank contact_keys row)
    by reflexivity.
  split; [exact Hcall|]. split; [exact Hcontact|]. split.
  - rewrite Hcall. unfold record_of. rewrite fill_record_dom. set_solver.
  - rewrite Hcontact. unfold record_of. rewrite fill_record_dom. set_solver.
Qed.
End RecordProperties.

Example record_of_a_short_row :
  record_of EmptyString ["Date"; "Bundle"; "Date"] ["d1"; "b1"; "d2"] !! "Date"
  = Some "d2"
  ∧ record_of EmptyString ["Date"; "Bundle"; "Date"] ["d3"] !! "Bundle"
    = Some EmptyString.
Proof. split; reflexivity. Qed.

(** ** The encryption status *)

(** X5. The parser's status and the check of the interface read the
    same manifest and agree on whether the backup is encrypted, except
    for a manifest that cannot be read: the parser then reports a
    backup that is not encrypted, the interface one that is. *)
Theorem encryption_checks_agree (m : manifest_file) (password : string) :
  (is_backup_encrypted m = is_encrypted (encryption_status m password)
   ↔ ∀ e : PyExc, m ≠ UnreadableManifest e)
  ∧ (∀ e : PyExc, m = UnreadableManifest e →
       is_encrypted (encryption_status m password) = false
       ∧ is_backup_encrypted m = true).
Proof.
  split.
  - destruct m as [|e|enc]; cbn; split.
    + intros _ e. discriminate.
    + reflexivity.
    + discriminate.
    + intros Hreadable. now destruct (Hreadable e).
    + intros _ e. discriminate.
    + reflexivity.
  - intros e ->. split; reflexivity.
Qed.

(** X6. A password is required exactly when the backup is encrypted, and
    the status has a password exactly when the manifest was read and
    the backup is either not encrypted or comes with a password that is
    not empty: without a readable manifest the status has none, though
    it requires none. *)
Theorem encryption_status_password (m : manifest_file) (password : string) :
  let st := encryption_status m password in
  requires_password st = is_encrypted st
  ∧ (has_password st = true
     ↔ ∃ IsEncrypted : option bool,
         m = Manifest IsEncrypted
         ∧ (IsEncrypted = Some true → password ≠ EmptyString)).
Proof.
  cbv zeta. split; [now destruct m|].
  destruct m as [|e|[[]|]]; cbn; split.
  all: try discriminate.
  all: try (intros (enc & Hm & _); discriminate).
  all: try reflexivity.
  - intros Hpw. exists (Some true). split; [reflexivity|].
    intros _ ->. discriminate.
  - intros (enc & Hm & Hpw). injection Hm as <-.
    destruct password; [now destruct (Hpw eq_refl) | reflexivity].
  - intros _. exists (Some false). split; [reflexivity | discriminate].
  - intros _. exists None. split; [reflexivity | discriminate].
Qed.

(** ** The artifact files *)

Lemma attempts_app (l1 l2 : list Event) :
  attempts (l1 ++ l2) = attempts l1 ++ attempts l2.
Proof. apply omap_app. Qed.

Lemma statuses_app (l1 l2 : list Event) :
  statuses (l1 ++ l2) = statuses l1 ++ statuses l2.
Proof. apply omap_app. Qed.

Lemma status_run {W : Type} (status_callback : bool) (msg : string) (w : W) :
  status status_callback msg w
  = (tt, w, if status_callback then [EvStatus msg] else []).
Proof. now destruct status_callback. Qed.

Section ArtifactProperties.
Context {W : Type} {lib : BackupLib W}.
Variable exc_str : PyExc → string.

Lemma extract_artifacts_loop_cons (status_callback : bool) (backup : Backup)
    (dest ID : string) (rest : list string) (w : W) :
  extract_artifacts_loop exc_str status_callback backup dest (ID :: rest) w =
  let '(r, w1) := Backup_extract_file_id backup ID dest w in
  let '(u, w2, l) :=
    extract_artifacts_loop exc_str status_callback backup dest rest w1 in
  (u, w2,
   EvExtract ID dest r
   :: (if status_callback
       then [EvStatus (artifact_status exc_str (ID, r))] else []) ++ l).
Proof.
  cbn [extract_artifacts_loop]. unfold mbind, M_bind, extract_file_id.
  destruct (Backup_extract_file_id backup ID dest w) as [r w1].
  destruct r as [e|[]]; rewrite status_run;
    destruct (extract_artifacts_loop exc_str status_callback backup dest rest w1)
      as [[u w2] l]; reflexivity.
Qed.

Lemma extract_artifacts_loop_trace (status_callback : bool) (backup : Backup)
    (dest : string) (ids : list string) (w : W) :
  let x := extract_artifacts_loop exc_str status_callback backup dest ids w in
  (attempts (events x)).*1 = ids
  ∧ statuses (events x)
    = if status_callback then map (artifact_status exc_str) (attempts (events x))
      else [].
Proof.
  revert w. induction ids as [|ID rest IH]; intros w.
  - cbn. now destruct status_callback.
  - cbv zeta. rewrite extract_artifacts_loop_cons.
    destruct (Backup_extract_file_id backup ID dest w) as [r w1].
    specialize (IH w1). cbv zeta in IH.
    destruct (extract_artifacts_loop exc_str status_callback backup dest rest w1)
      as [[u w2] l].
    unfold events in *. cbn [fst snd] in *. destruct IH as [IHids IHst].
    change (attempts (EvExtract ID dest r :: ?k)) with ((ID, r) :: attempts k).
    change (statuses (EvExtract ID dest r :: ?k)) with (statuses k).
    rewrite attempts_app, statuses_app, IHst.
    destruct status_callback; cbn; rewrite IHids; split; reflexivity.
Qed.

(** X7. The extraction of the artifact files never raises.  When the
    backup opens, [extract_file_id] is called for each of the fourteen
    file IDs in their order, whatever the earlier calls raised, and
    the callback gets one message per ID that tells an extracted file
    from a failed one; when the backup does not open, nothing is
    extracted and the callback gets the one message of the set-up. *)
Theorem extract_artifacts_tries_every_file (status_callback : bool)
    (backup_path password dest : string) (w : W) :
  let x := extract_artifacts exc_str status_callback backup_path password dest w in
  match Backup_from_path backup_path password w with
  | (inr backup, w1) =>
      (attempts (events x)).*1 = artifact_fileIDs
      ∧ statuses (events x)
        = if status_callback
          then map (artifact_status exc_str) (attempts (events x))
          else []
  | (inl e, w1) =>
      x = (tt, w1,
           EvFromPath backup_path password false
           :: if status_callback
              then [EvStatus ("Error setting up backup extraction: " +:+ exc_str e)]
              else [])
  end.
Proof.
  cbv zeta. unfold extract_artifacts, mbind, M_bind, from_path.
  destruct (Backup_from_path backup_path password w) as [[e|backup] w1].
  - rewrite status_run. reflexivity.
  - pose proof (extract_artifacts_loop_trace status_callback backup dest
                  artifact_fileIDs w1) as Hloop.
    cbv zeta in Hloop.
    destruct (extract_artifacts_loop exc_str status_callback backup dest
                artifact_fileIDs w1) as [[u w2] l].
    unfold events in *. cbn [fst snd app] in *. exact Hloop.
Qed.
End ArtifactProperties.

Example extract_artifacts_without_call_history :
  statuses (events (extract_artifacts demo_exc_str true "backup" "secret"
                      "out/Artifacts" partial_world))
  = map (λ ID,
           if bool_decide (ID = "5a4935c78a5255723f707230a451d79c540d2741")
           then "Error extracting file " +:+ ID +:+ ": missing entry"
           else "Extracted file " +:+ ID)
      artifact_fileIDs.
Proof. vm_compute. reflexivity. Qed.

Section RetrieveFilesProperties.
Context {W : Type} {lib : BackupLib W}.

Lemma retrieve_files_loop_trace (backup : Backup) (dest : string)
    (ids : list string) (w : W) :
  (attempts (events (retrieve_files_loop backup dest ids w))).*1 = ids.
Proof.
  revert w. induction ids as [|ID rest IH]; intros w; [reflexivity|].
  cbn [retrieve_files_loop]. unfold mbind, M_bind, extract_file_id.
  destruct (Backup_extract_file_id backup ID dest w) as [r w1].
  specialize (IH w1).
  destruct (retrieve_files_loop backup dest rest w1) as [[u w2] l].
  unfold events in *. cbn in *. now rewrite IH.
Qed.

(** X8. [retrieve_files_from_backup] raises exactly what
    [Backup.from_path] raises, before any file is asked for; once the
    backup is open it returns normally whatever the extractions raise,
    after calling [extract_file_id] for each of its fourteen file IDs,
    which are those of [parse_backup] in another order. *)
Theorem retrieve_files_raises_only_on_open
    (backup_path filedestination password : string) (w : W) :
  let x := retrieve_files_from_backup backup_path filedestination password w in
  match Backup_from_path backup_path password w with
  | (inl e, w1) => x = (inl e, w1, [EvFromPath backup_path password false])
  | (inr backup, w1) =>
      value x = inr tt ∧ (attempts (events x)).*1 = retrieve_files_fileIDs
  end
  ∧ retrieve_files_fileIDs ≡ₚ artifact_fileIDs.
Proof.
  cbv zeta. split.
  - unfold retrieve_files_from_backup, mbind, M_bind, mret, M_ret, from_path.
    destruct (Backup_from_path backup_path password w) as [[e|backup] w1];
      [reflexivity|].
    pose proof (retrieve_files_loop_trace backup filedestination
                  retrieve_files_fileIDs w1) as Hloop.
    destruct (retrieve_files_loop backup filedestination
                retrieve_files_fileIDs w1) as [[u w2] l].
    unfold events, value in *. cbn [fst snd] in *.
    split; [reflexivity|].
    cbn [app]. rewrite app_nil_r. exact Hloop.
  - apply (bool_decide_unpack _). vm_compute. exact I.
Qed.
End RetrieveFilesProperties.

(** ** The list of photo file IDs *)

Lemma utf8_char_scalar (c : Z) :
  is_scalar c = true ↔ utf8_char c ≠ None.
Proof.
  unfold is_scalar, utf8_char.
  destruct (Z.ltb_spec c 0), (Z.ltb_spec c 128), (Z.ltb_spec c 2048),
    (Z.leb_spec 55296 c), (Z.leb_spec c 57343), (Z.ltb_spec c 65536),
    (Z.leb_spec c 1114111), (Z.leb_spec 0 c); cbn; try lia;
    split; congruence.
Qed.

Lemma utf8_encode_scalars (s : pystr) :
  forallb is_scalar s = true ↔ utf8_encode s ≠ None.
Proof.
  induction s as [|c s IH]; cbn [forallb utf8_encode]; [split; [discriminate | reflexivity]|].
  rewrite andb_true_iff, IH, utf8_char_scalar.
  destruct (utf8_char c), (utf8_encode s); split; try tauto; try discriminate;
    try (intros [? ?]; congruence); try (intros _; split; discriminate).
Qed.

Lemma photofile_name_of_scalars (filepathinbackup : pystr) :
  forallb is_scalar filepathinbackup = true →
  ∃ name, calculate_itunes_photofile_name filepathinbackup = inr name.
Proof.
  intros Hall. apply utf8_encode_scalars in Hall.
  unfold calculate_itunes_photofile_name, encode_strict.
  rewrite utf8_encode_app, utf8_encode_prefix.
  destruct (utf8_encode filepathinbackup) as [bs|]; [eauto | congruence].
Qed.

Lemma photofile_name_of_surrogate (filepathinbackup : pystr) :
  forallb is_scalar filepathinbackup = false →
  calculate_itunes_photofile_name filepathinbackup = inl UnicodeEncodeError.
Proof.
  intros Hnot. apply photofile_name_unencodable.
  destruct (utf8_encode filepathinbackup) eqn:Henc; [|reflexivity].
  assert (Hall : forallb is_scalar filepathinbackup = true)
    by (apply utf8_encode_scalars; congruence).
  congruence.
Qed.

(** X9. The content address of a photo path is computed unless the
    path holds a code point that is no Unicode scalar value (a
    surrogate): [calculate_itunes_photofile_name] raises
    [UnicodeEncodeError] exactly for those paths, and returns a name
    for every other one. *)
Theorem photofile_name_raises_iff_not_scalar (filepathinbackup : pystr) :
  (calculate_itunes_photofile_name filepathinbackup = inl UnicodeEncodeError
   ↔ forallb is_scalar filepathinbackup = false)
  ∧ ((∃ name, calculate_itunes_photofile_name filepathinbackup = inr name)
     ↔ forallb is_scalar filepathinbackup = true).
Proof.
  pose proof (utf8_encode_scalars filepathinbackup) as Hsc.
  unfold calculate_itunes_photofile_name, encode_strict.
  rewrite utf8_encode_app, utf8_encode_prefix.
  destruct (utf8_encode filepathinbackup) as [bs|].
  - assert (Hall : forallb is_scalar filepathinbackup = true)
      by (apply Hsc; discriminate).
    rewrite Hall. repeat split; try discriminate; eauto.
  - assert (Hnot : forallb is_scalar filepathinbackup = false).
    { destruct (forallb is_scalar filepathinbackup); [|reflexivity].
      now destruct (proj1 Hsc eq_refl). }
    rewrite Hnot. repeat split; try discriminate; intros [name Hname]; discriminate.
Qed.

Lemma photo_fileIDs_app (good rest : list pystr) :
  forallb (forallb is_scalar) good = true →
  photo_fileIDs (good ++ rest) = photo_fileIDs good ++ photo_fileIDs rest
  ∧ map inr (photo_fileIDs good) = map calculate_itunes_photofile_name good.
Proof.
  induction good as [|thing good IH]; [split; reflexivity|].
  cbn [forallb]. intros [Hthing Hgood]%andb_true_iff.
  destruct (photofile_name_of_scalars thing Hthing) as [name Hname].
  destruct (IH Hgood) as [IHapp IHmap].
  cbn [app photo_fileIDs map]. rewrite Hname. cbn [app map].
  split; [now rewrite IHapp | now rewrite IHmap].
Qed.

(** X10. The list of file IDs to extract is built path by path and
    the loop is left at the first path that does not encode: the IDs
    of the paths before it are kept, one per path and in order, and
    the paths after it get no ID, whatever they hold. *)
Theorem photo_fileIDs_stop_at_first_bad_path (good : list pystr) (bad : pystr)
    (later : list pystr) :
  forallb (forallb is_scalar) good = true →
  forallb is_scalar bad = false →
  photo_fileIDs (good ++ bad :: later) = photo_fileIDs good
  ∧ map inr (photo_fileIDs good) = map calculate_itunes_photofile_name good
  ∧ length (photo_fileIDs good) = length good.
Proof.
  intros Hgood Hbad. destruct (photo_fileIDs_app good (bad :: later) Hgood)
    as [Happ Hmap].
  split; [|split; [exact Hmap|]].
  - rewrite Happ. cbn [photo_fileIDs].
    rewrite (photofile_name_of_surrogate bad Hbad). apply app_nil_r.
  - rewrite <- (List.length_map (@inr PyExc string) (photo_fileIDs good)), Hmap.
    apply List.length_map.
Qed.

Lemma photo_fileIDs_stop_at_first_bad_path_witness :
  forallb (forallb is_scalar) [pystr_of_string "DCIM/100APPLE/IMG_0001.JPG"] = true
  ∧ forallb is_scalar [68; 56832] = false
  ∧ photo_fileIDs [pystr_of_string "DCIM/100APPLE/IMG_0001.JPG"; [68; 56832];
                   pystr_of_string "DCIM/100APPLE/IMG_0002.JPG"]
    = ["343e26971dfe9c395c425c0ccf799df63ae6261e"].
Proof.
  split; [reflexivity|]. split; [reflexivity|].
  etransitivity.
  - exact (proj1 (photo_fileIDs_stop_at_first_bad_path
                    [pystr_of_string "DCIM/100APPLE/IMG_0001.JPG"] [68; 56832]
                    [pystr_of_string "DCIM/100APPLE/IMG_0002.JPG"]
                    eq_refl eq_refl)).
  - vm_compute. reflexivity.
Defined.

(** ** The scene dictionary *)

Lemma dict_get_In (id : Z) (d : list (Z * string)) (label : string) :
  dict_get id d = Some label → In (id, label) d.
Proof.
  induction d as [|[k v] d IH]; cbn; [discriminate|].
  destruct (Z.eqb_spec k id) as [->|Hne].
  - intros [= ->]. now left.
  - intros Hget. right. now apply IH.
Qed.

Lemma In_dict_labels (id : Z) (d : list (Z * string)) (label : string) :
  In (id, label) d → In label (map snd d).
Proof. intros Hin. apply in_map_iff. now exists (id, label). Qed.

Lemma labels_unique (d : list (Z * string)) (id1 id2 : Z) (label : string) :
  NoDup (map snd d) → In (id1, label) d → In (id2, label) d → id1 = id2.
Proof.
  induction d as [|[k v] d IH]; cbn; [tauto|].
  intros Hnodup H1 H2. apply NoDup_cons in Hnodup as [Hv Hnodup].
  destruct H1 as [H1|H1], H2 as [H2|H2].
  - congruence.
  - injection H1 as _ ->. destruct Hv. apply list_elem_of_In.
    eapply In_dict_labels. exact H2.
  - injection H2 as _ ->. destruct Hv. apply list_elem_of_In.
    eapply In_dict_labels. exact H1.
  - now apply IH.
Qed.

Lemma replace_scene_label (id : Z) (target : string) :
  replace_scene id = SceneLabel target ↔ dict_get id taxonomy_Dict = Some target.
Proof.
  unfold replace_scene. destruct (dict_get id taxonomy_Dict) as [label|];
    split; congruence.
Qed.

(** X11. On a catalog whose scene column comes out of the replacement
    by the dictionary, the filter keeps the rows whose scene identifier
    the dictionary maps to the target, with a confidence above 5; a
    label stands for one identifier only; and a target that is no
    label of the dictionary, such as the blank first option of the
    interface, keeps no row, since an identifier that the dictionary
    does not know stays a number. *)
Theorem filter_taxonomy_by_dictionary (taxonomyquery : DataFrame)
    (taxonomy_target : string) :
  (∀ r, In r taxonomyquery → ∃ id, Scene_Classification r = replace_scene id) →
  (∀ r, In r (filter_taxonomy taxonomyquery taxonomy_target) ↔
        In r taxonomyquery
        ∧ (∃ id, Scene_Classification r = replace_scene id
                 ∧ dict_get id taxonomy_Dict = Some taxonomy_target)
        ∧ ∃ c, Confidence r = Some c ∧ 5 < c)
  ∧ (∀ id1 id2, dict_get id1 taxonomy_Dict = Some taxonomy_target →
                dict_get id2 taxonomy_Dict = Some taxonomy_target → id1 = id2)
  ∧ (¬ In taxonomy_target taxonomy_labels →
     filter_taxonomy taxonomyquery taxonomy_target = []).
Proof.
  intros Hscenes.
  assert (Hmem : ∀ r, In r (filter_taxonomy taxonomyquery taxonomy_target) ↔
        In r taxonomyquery
        ∧ (∃ id, Scene_Classification r = replace_scene id
                 ∧ dict_get id taxonomy_Dict = Some taxonomy_target)
        ∧ ∃ c, Confidence r = Some c ∧ 5 < c).
  { intros r. unfold filter_taxonomy. rewrite filter_In, selected_spec. split.
    - intros (Hin & Hscene & Hconf). split; [exact Hin|]. split; [|exact Hconf].
      destruct (Hscenes r Hin) as [id Hid]. exists id. split; [exact Hid|].
      apply replace_scene_label. congruence.
    - intros (Hin & (id & Hid & Hget) & Hconf). split; [exact Hin|].
      split; [|exact Hconf]. rewrite Hid. now apply replace_scene_label. }
  split; [exact Hmem|]. split.
  - intros id1 id2 H1 H2.
    apply (labels_unique taxonomy_Dict id1 id2 taxonomy_target).
    + apply (bool_decide_unpack _). vm_compute. exact I.
    + now apply dict_get_In.
    + now apply dict_get_In.
  - intros Hnot.
    destruct (filter_taxonomy taxonomyquery taxonomy_target) as [|r l];
      [reflexivity|].
    destruct (proj1 (Hmem r) (or_introl eq_refl)) as (_ & (id & _ & Hget) & _).
    destruct Hnot. eapply In_dict_labels. apply dict_get_In. exact Hget.
Qed.

Lemma filter_taxonomy_by_dictionary_witness :
  (∀ r, In r three_scenes → ∃ id, Scene_Classification r = replace_scene id)
  ∧ filter_taxonomy three_scenes " " = []
  ∧ map Filename (filter_taxonomy three_scenes "firearm") = [PStr "IMG_0001.JPG"].
Proof.
  assert (Hscenes : ∀ r, In r three_scenes →
                         ∃ id, Scene_Classification r = replace_scene id).
  { intros r [<-|[<-|[<-|[]]]]; eexists; reflexivity. }
  split; [exact Hscenes|]. split; [|reflexivity].
  apply (proj2 (proj2 (filter_taxonomy_by_dictionary three_scenes " " Hscenes))).
  vm_compute. intuition discriminate.
Defined.

(** ** The group-chat columns *)

Example split_comma_cases :
  split_comma EmptyString = [EmptyString]
  ∧ split_comma "a, b, c" = ["a"; "b"; "c"]
  ∧ split_comma ", " = [EmptyString; EmptyString]
  ∧ split_comma "a,, b" = ["a,"; "b"]
  ∧ split_comma "a, " = ["a"; EmptyString]
  ∧ split_comma ",a , b," = [",a "; "b,"]
  ∧ split_comma ", , " = [EmptyString; EmptyString; EmptyString].
Proof. repeat split; reflexivity. Qed.

Lemma split_comma_separator (s : string) :
  split_comma (String "," (String " " s)) = EmptyString :: split_comma s.
Proof. reflexivity. Qed.

Lemma split_comma_char (c : ascii) (s : string) :
  (c ≠ ","%char ∨ ∀ s', s ≠ String " " s') →
  split_comma (String c s) = push_char c (split_comma s).
Proof.
  intros Hnot.
  destruct (ascii_dec c ",") as [->|Hc].
  - destruct Hnot as [Hc|Hs]; [congruence|].
    destruct s as [|c2 s']; [reflexivity|].
    destruct (ascii_dec c2 " ") as [->|Hc2]; [now destruct (Hs s')|].
    destruct c2 as [[] [] [] [] [] [] [] []]; try reflexivity. congruence.
  - destruct c as [[] [] [] [] [] [] [] []]; try reflexivity. congruence.
Qed.

Lemma split_comma_not_nil (s : string) : split_comma s ≠ [].
Proof.
  assert (Hlen : ∀ n s, (String.length s <= n)%nat → split_comma s ≠ []).
  { clear s. induction n as [|n IH]; intros s Hs.
    - destruct s; [discriminate | cbn in Hs; lia].
    - destruct s as [|c s]; [discriminate|].
      destruct (ascii_dec c ",") as [->|Hc].
      + destruct s as [|c2 s']; [discriminate|].
        destruct (ascii_dec c2 " ") as [->|Hc2]; [discriminate|].
        rewrite split_comma_char by (right; congruence).
        now destruct (split_comma (String c2 s')).
      + rewrite split_comma_char by now left.
        now destruct (split_comma s). }
  now apply (Hlen (String.length s)).
Qed.

Lemma join_push_char (sep : string) (c : ascii) (pieces : list string) :
  pieces ≠ [] → join sep (push_char c pieces) = String c (join sep pieces).
Proof.
  destruct pieces as [|p [|q rest]]; [congruence | reflexivity | reflexivity].
Qed.

(** Joining the pieces of a split by the separator gives the text back. *)
Lemma join_split_comma (s : string) : join ", " (split_comma s) = s.
Proof.
  assert (Hlen : ∀ n s, (String.length s <= n)%nat → join ", " (split_comma s) = s).
  { clear s. induction n as [|n IH]; intros s Hs.
    - destruct s; [reflexivity | cbn in Hs; lia].
    - destruct s as [|c s]; [reflexivity|]. cbn in Hs.
      destruct (ascii_dec c ",") as [->|Hc].
      + destruct s as [|c2 s']; [reflexivity|].
        destruct (ascii_dec c2 " ") as [->|Hc2].
        * rewrite split_comma_separator. cbn in Hs.
          pose proof (split_comma_not_nil s') as Hne.
          destruct (split_comma s') as [|p ps] eqn:Hsplit; [congruence|].
          change (join ", " (EmptyString :: p :: ps))
            with (String "," (String " " (join ", " (p :: ps)))).
          rewrite <- Hsplit. rewrite IH by lia. reflexivity.
        * rewrite split_comma_char by (right; congruence).
          rewrite join_push_char by apply split_comma_not_nil.
          now rewrite IH by lia.
      + rewrite split_comma_char by now left.
        rewrite join_push_char by apply split_comma_not_nil.
        now rewrite IH by lia. }
  now apply (Hlen (String.length s)).
Qed.

(** X12. A group without a name is shown by its participants: when
    there are at most three of them the name shown is the participants
    text as the query returned it, since joining the pieces of the
    split gives the text back. *)
Theorem group_display_name_of_small_group (g : group_info) :
  name g = EmptyString →
  (length (split_comma (members g)) <= 3)%nat →
  group_display_name g = members g.
Proof.
  intros Hname Hsmall. unfold group_display_name. rewrite Hname.
  rewrite (proj2 (Nat.leb_le _ _) Hsmall). apply join_split_comma.
Qed.

Lemma group_display_name_of_small_group_witness :
  name (group_info_of {| chat_ROWID := 3; display_name := None;
                         chat_identifier := Some "chat42";
                         participant_count := 2;
                         participants := Some "+15550100, ada@example.org" |})
  = EmptyString
  ∧ group_display_name
      (group_info_of {| chat_ROWID := 3; display_name := None;
                        chat_identifier := Some "chat42";
                        participant_count := 2;
                        participants := Some "+15550100, ada@example.org" |})
    = "+15550100, ada@example.org".
Proof.
  split; [reflexivity|].
  apply (group_display_name_of_small_group
           (group_info_of {| chat_ROWID := 3; display_name := None;
                             chat_identifier := Some "chat42";
                             participant_count := 2;
                             participants := Some "+15550100, ada@example.org" |}));
    [reflexivity | vm_compute; lia].
Defined.

Lemma index_of_In (x : string) (l : list string) :
  In x l → ∃ i, index_of x l = Some i ∧ (i < length l)%nat.
Proof.
  induction l as [|y l IH]; cbn; [tauto|].
  intros Hin. destruct (bool_decide (y = x)) eqn:Hy.
  - exists 0%nat. split; [reflexivity | lia].
  - apply bool_decide_eq_false in Hy.
    destruct Hin as [->|Hin]; [congruence|].
    destruct (IH Hin) as (i & -> & Hi). exists (S i). split; [reflexivity | lia].
Qed.

Lemma group_cells_shape (group_data : gmap Z group_info) (chat_id : SqlVal) :
  ∃ yes_no group_name,
    group_cells group_data chat_id = [SqlText yes_no; SqlText group_name]
    ∧ (yes_no = "Yes" ∨ (yes_no = "No" ∧ group_name = EmptyString)).
Proof.
  unfold group_cells.
  destruct chat_id as [|z|s|b]; try (eexists _, _; split; [reflexivity | auto]).
  destruct (group_data !! z) as [g|]; [|eexists _, _; split; [reflexivity | auto]].
  destruct (is_group g); eexists _, _; split; try reflexivity; auto.
Qed.

(** X13. When the message query has its "Chat ID" column and every
    fetched row has one cell per column, [sqlite_run_SMS] returns a
    table that is still rectangular: two headers are added and every
    row gets two cells after its own, "Yes" with the name shown for the
    group, or "No" with an empty name; no row is dropped or reordered. *)
Theorem sms_table_is_rectangular (chats : list chat)
    (column_headers : list string) (results : list (list SqlVal)) :
  In "Chat ID" column_headers →
  Forall (λ row, length row = length column_headers) results →
  ∃ processed : list (list SqlVal),
    sqlite_run_SMS_table chats column_headers results
    = inr (column_headers ++ ["Is Group Chat"; "Group Name"], processed)
    ∧ Forall (λ row, length row
                     = length (column_headers ++ ["Is Group Chat"; "Group Name"]))
        processed
    ∧ Forall2
        (λ row row_list,
           ∃ yes_no group_name,
             row_list = row ++ [SqlText yes_no; SqlText group_name]
             ∧ (yes_no = "Yes" ∨ (yes_no = "No" ∧ group_name = EmptyString)))
        results processed.
Proof.
  intros Hchat Hrows. unfold sqlite_run_SMS_table.
  destruct (index_of_In _ _ Hchat) as (i & Hi & Hlt).
  set (group_data := group_data_of chats).
  assert (Hgo : ∃ processed,
             process_message_rows column_headers group_data results = inr processed
             ∧ Forall (λ row, length row = (length column_headers + 2)%nat) processed
             ∧ Forall2
                 (λ row row_list,
                    ∃ yes_no group_name,
                      row_list = row ++ [SqlText yes_no; SqlText group_name]
                      ∧ (yes_no = "Yes" ∨ (yes_no = "No" ∧ group_name = EmptyString)))
                 results processed).
  { induction Hrows as [|row rest Hrow Hrest IH].
    - exists []. repeat split; constructor.
    - destruct IH as (processed & Hproc & Hlen & Hshape).
      cbn [process_message_rows]. unfold process_message_row. rewrite Hi.
      destruct (row !! i) as [chat_id|] eqn:Hcell.
      + destruct (group_cells_shape group_data chat_id)
          as (yes_no & group_name & Hcells & Hyn).
        rewrite Hproc, Hcells. eexists. split; [reflexivity|]. split.
        * constructor; [|exact Hlen]. rewrite length_app, Hrow. reflexivity.
        * constructor; [|exact Hshape]. eauto.
      + apply lookup_ge_None in Hcell. lia. }
  destruct Hgo as (processed & -> & Hlen & Hshape).
  exists processed. split; [reflexivity|]. split; [|exact Hshape].
  eapply Forall_impl; [exact Hlen|]. intros row Hrow.
  rewrite length_app. exact Hrow.
Qed.

Lemma sms_table_is_rectangular_witness :
  In "Chat ID" demo_headers
  ∧ Forall (λ row, length row = length demo_headers) demo_messages
  ∧ sqlite_run_SMS_table demo_chats demo_headers demo_messages
    = inr (["Message Date"; "Chat ID"; "Contact"; "Is Group Chat"; "Group Name"],
           [ [SqlText "2024-01-01 10:00:00"; SqlInt 7; SqlText "+15550101";
              SqlText "Yes"; SqlText "+15550100, +15550101, +15550102... (+1)"];
             [SqlText "2024-01-01 10:05:00"; SqlInt 8; SqlText "+15550100";
              SqlText "No"; SqlText EmptyString];
             [SqlNull; SqlInt 9; SqlText EmptyString;
              SqlText "No"; SqlText EmptyString] ]).
Proof.
  assert (Hchat : In "Chat ID" demo_headers) by (right; left; reflexivity).
  assert (Hrows : Forall (λ row, length row = length demo_headers) demo_messages)
    by (repeat constructor).
  split; [exact Hchat|]. split; [exact Hrows|].
  destruct (sms_table_is_rectangular demo_chats demo_headers demo_messages
              Hchat Hrows) as (processed & Htable & _).
  rewrite Htable. vm_compute in Htable. injection Htable as <-. reflexivity.
Defined.

(** ** The extraction routine, continued *)

Lemma filter_partition_length {A : Type} (p : A → bool) (l : list A) :
  (length (List.filter p l) + length (List.filter (λ a, negb (p a)) l)
   = length l)%nat.
Proof.
  induction l as [|a l IH]; [reflexivity|]. cbn [List.filter].
  destruct (p a); cbn [negb length]; lia.
Qed.

Lemma filter_implies_length {A : Type} (p q : A → bool) (l : list A) :
  (∀ a, p a = true → q a = true) →
  (length (List.filter p l) <= length (List.filter q l))%nat.
Proof.
  intros Hpq. induction l as [|a l IH]; [reflexivity|]. cbn [List.filter].
  destruct (p a) eqn:Hp.
  - rewrite (Hpq a Hp). cbn [length]. lia.
  - destruct (q a); cbn [length]; lia.
Qed.

Lemma filter_fst_sublist {A B : Type} (p : A * B → bool) (l : list (A * B)) :
  sublist (List.filter p l).*1 l.*1.
Proof.
  induction l as [|a l IH]; [constructor|]. cbn [List.filter].
  destruct (p a); cbn; now constructor.
Qed.

Section CounterProperties.
Context {W : Type} {lib : BackupLib W}.
Import parse_ios_backup.

(** X14. With a backup that opens, the routine counts every file ID
    once: the extracted count and the number of failed IDs add up to
    the number of IDs asked for, the missing entries are among the
    failed IDs, and the failed IDs come in the order of the request. *)
Theorem retrieve_photos_counts_every_id
    (backup_path filedestination password : string)
    (list_of_fileIDs : list string) (w w1 : W) (backup : Backup) :
  list_of_fileIDs ≠ [] →
  Backup_from_path backup_path password w = (inr backup, w1) →
  ∃ c : counters,
    value (retrieve_photos backup_path filedestination password
             list_of_fileIDs w) = (extracted_count c, Some c)
    ∧ extracted_count c + Z.of_nat (length (failed_ids c))
      = Z.of_nat (length list_of_fileIDs)
    ∧ 0 ≤ missing_entry_count c ≤ Z.of_nat (length (failed_ids c))
    ∧ sublist (failed_ids c) list_of_fileIDs.
Proof.
  intros Hne Hopen. destruct list_of_fileIDs as [|ID rest]; [congruence|].
  rewrite (retrieve_photos_opened _ _ _ _ _ _ _ _ Hopen).
  pose proof (extract_loop_trace backup filedestination (ID :: rest) start w1)
    as Htrace. cbv zeta in Htrace.
  destruct (extract_loop backup filedestination (ID :: rest) start w1)
    as [[c w2] l].
  unfold events, value in *. cbn [fst snd] in *.
  destruct Htrace as (Hids & Hval & _ & _).
  destruct (replay_counts (attempts l) start) as (He & Hm & Hf).
  rewrite <- Hval in He, Hm, Hf. cbn in He, Hm, Hf.
  exists c. split; [reflexivity|].
  pose proof (filter_partition_length extracted_ok (attempts l)) as Hpart.
  change (λ a, negb (extracted_ok a)) with raised in Hpart.
  assert (Hlen : length (attempts l) = length (ID :: rest))
    by (rewrite <- Hids; now rewrite length_fmap).
  assert (Hmiss : (length (List.filter raised_missing (attempts l))
                   <= length (List.filter raised (attempts l)))%nat).
  { apply filter_implies_length. intros [i [e|u]]; cbn; [reflexivity | discriminate]. }
  rewrite He, Hm, Hf, length_fmap. repeat split; try lia.
  rewrite <- Hids. apply filter_fst_sublist.
Qed.
End CounterProperties.

Lemma retrieve_photos_counts_every_id_witness :
  ["a"; "gone"; "disk"; "b"; "bad"] ≠ []
  ∧ Backup_from_path "backup" "secret" demo_world = (inr tt, demo_world)
  ∧ ∃ c : parse_ios_backup.counters,
      value (parse_ios_backup.retrieve_photos "backup" "out" "secret"
               ["a"; "gone"; "disk"; "b"; "bad"] demo_world)
      = (2, Some c)
      ∧ parse_ios_backup.failed_ids c = ["gone"; "disk"; "bad"]
      ∧ parse_ios_backup.missing_entry_count c = 1.
Proof.
  split; [discriminate|]. split; [reflexivity|].
  destruct (retrieve_photos_counts_every_id (lib:=Scripted_backup) "backup" "out"
              "secret" ["a"; "gone"; "disk"; "b"; "bad"] demo_world demo_world tt)
    as (c & Hval & _); [discriminate | reflexivity |].
  exists c. vm_compute in Hval. injection Hval as Hn Hc. subst c.
  repeat split; reflexivity.
Defined.

(** ** The fallback blocks, continued *)

Lemma events_triple {W A : Type} (a : A) (w : W) (l : list Event) :
  events (a, w, l) = l.
Proof. reflexivity. Qed.

Lemma value_triple {W A : Type} (a : A) (w : W) (l : list Event) :
  value (a, w, l) = a.
Proof. reflexivity. Qed.

Lemma world_triple {W A : Type} (a : A) (w : W) (l : list Event) :
  world (a, w, l) = w.
Proof. reflexivity. Qed.

Section FallbackProperties.
Context {W : Type} {lib : BackupLib W}.
Variables (backup_path password : string) (status_callback : bool).

(** X15. In the turn that handles the photo catalog, the blocks raise
    exactly when the standard routine returned 0 for a list of file
    IDs that is not empty, and what they raise is the [AttributeError]
    of the first look-up.  In every other case (a file was extracted,
    or no file ID was asked for) they do nothing: the locals are those
    the standard routine left, and no message is sent. *)
Theorem fallbacks_raise_iff_standard_found_nothing (photo_folder : string)
    (fileIDs : list string) (df : option DataFrame) (L : locals) (w : W) :
  let s := parse_ios_backup.retrieve_photos_from_backup backup_path photo_folder
             password fileIDs w in
  let x := extraction_blocks backup_path password status_callback photo_folder
             fileIDs df L w in
  (value x = inl AttributeError ↔ value s = 0 ∧ fileIDs ≠ [])
  ∧ (∀ e, value x = inl e → e = AttributeError)
  ∧ (¬ (value s = 0 ∧ fileIDs ≠ []) →
     x = (inr {| extracted_count := Some (value s);
                 list_of_paths := fileIDs;
                 filtered_df := df;
                 photo_output_destination := Some photo_folder;
                 extracted_photos_path := extracted_photos_path L |},
          world s, events s)).
Proof.
  cbv zeta. rewrite extraction_blocks_run. cbv zeta.
  set (s := parse_ios_backup.retrieve_photos_from_backup backup_path
              photo_folder password fileIDs w).
  set (L0 := {| extracted_count := Some (value s); list_of_paths := fileIDs;
                filtered_df := df; photo_output_destination := Some photo_folder;
                extracted_photos_path := extracted_photos_path L |}).
  assert (Hcond : standard_found_nothing L0 = true ↔ value s = 0 ∧ fileIDs ≠ []).
  { rewrite standard_found_nothing_spec. cbn. split.
    - intros [[= ->] ?]. auto.
    - intros [-> ?]. auto. }
  destruct (standard_found_nothing L0) eqn:Hsfn.
  - rewrite (fallback_blocks_run status_callback L0 (world s) Hsfn).
    rewrite !value_triple. split; [|split].
    + split; [intros _; now apply Hcond | reflexivity].
    + now intros e [= <-].
    + intros Hno. destruct Hno. now apply Hcond.
  - rewrite (fallback_blocks_skipped status_callback L0 (world s) Hsfn).
    rewrite !value_triple, !world_triple, !events_triple. split; [|split].
    + split; [discriminate|]. intros Hyes. apply Hcond in Hyes. discriminate.
    + discriminate.
    + intros _. now rewrite app_nil_r.
Qed.

(** X16. A backup that cannot be opened makes the photo turn raise:
    the standard routine swallows the exception of [Backup.from_path]
    and returns 0 without asking for a file, so for a list of file IDs
    that is not empty the first fallback block is entered and its
    look-up raises [AttributeError]. *)
Theorem locked_backup_raises_attribute_error (photo_folder : string)
    (fileIDs : list string) (df : option DataFrame) (L : locals) (w w1 : W)
    (e : PyExc) :
  fileIDs ≠ [] →
  Backup_from_path backup_path password w = (inl e, w1) →
  let x := extraction_blocks backup_path password status_callback photo_folder
             fileIDs df L w in
  x = (inl AttributeError, w1,
       EvFromPath backup_path password false
       :: if status_callback
          then [EvStatus "Standard extraction failed. Trying direct file extraction..."]
          else [])
  ∧ attempts (events x) = [].
Proof.
  intros Hne Hopen. cbv zeta.
  assert (Hstd : parse_ios_backup.retrieve_photos_from_backup backup_path
                   photo_folder password fileIDs w
                 = (0, w1, [EvFromPath backup_path password false])).
  { rewrite retrieve_photos_from_backup_value.
    destruct fileIDs as [|ID rest]; [congruence|].
    now rewrite (retrieve_photos_not_opened _ _ _ _ _ _ _ _ Hopen). }
  rewrite extraction_blocks_run. cbv zeta.
  rewrite Hstd, value_triple, world_triple, events_triple.
  rewrite fallback_blocks_run
    by (apply standard_found_nothing_spec; cbn; split; [reflexivity | exact Hne]).
  rewrite value_triple, world_triple, events_triple. cbn [app].
  split; [reflexivity|]. now destruct status_callback.
Qed.
End FallbackProperties.

Lemma locked_backup_raises_attribute_error_witness :
  ["gone"; "a"] ≠ []
  ∧ Backup_from_path "backup" "secret" locked_world
    = (inl (OtherError "not a backup"), locked_world)
  ∧ extraction_blocks "backup" "secret" true "out/Photos_firearm"
      ["gone"; "a"] None no_locals locked_world
    = (inl AttributeError, locked_world,
       [EvFromPath "backup" "secret" false;
        EvStatus "Standard extraction failed. Trying direct file extraction..."]).
Proof.
  split; [discriminate|]. split; [reflexivity|].
  exact (proj1 (locked_backup_raises_attribute_error (lib:=Scripted_backup)
                  "backup" "secret" true "out/Photos_firearm" ["gone"; "a"]
                  None no_locals locked_world locked_world
                  (OtherError "not a backup") ltac:(discriminate) eq_refl)).
Defined.

(** ** The recovery report, continued *)

Section StatusPartition.
Variable present : gset string.

(** Every record is recovered, missing or in error. *)
Lemma status_partition (df : DataFrame) :
  let frame := apply_recovery_status present df in
  count_status "Recovered" frame
  + Z.of_nat (length (missing_files_of frame))
  + count_status "Error" frame
  = Z.of_nat (length frame).
Proof.
  cbv zeta. unfold missing_files_of, count_status, apply_recovery_status.
  induction df as [|row df IH]; [reflexivity|].
  cbn [map List.filter]. rewrite !has_status_apply.
  pose proof (recovery_status_cases present row) as Hcase.
  destruct (py_in (Filename row) present) as [e|[]]; rewrite Hcase; decide_status;
    cbn [map length]; rewrite ?length_map in *; lia.
Qed.
End StatusPartition.

Lemma recovery_summary_shape (present : gset string) (df : DataFrame)
    (extraction_summary : string) (frame : StatusFrame)
    (recovered_count total_attempted missing_count : Z) (summary : string) :
  recovery_summary present df extraction_summary
  = inr (Reconciled frame recovered_count total_attempted missing_count summary) →
  frame = apply_recovery_status present df
  ∧ recovered_count = count_status "Recovered" frame
  ∧ total_attempted = Z.of_nat (length frame)
  ∧ missing_count = total_attempted - recovered_count.
Proof.
  unfold recovery_summary. intros Hsum.
  destruct (0 <? _) in Hsum; [destruct (missing_line _) in Hsum; [discriminate|]|];
    injection Hsum as <- <- <- <- _; repeat split; reflexivity.
Qed.

(** X17. In a report, the missing count is the total less the
    recovered count, so it takes in the records whose status is
    "Error" along with the missing ones, while the list of missing
    file names holds the missing ones only. *)
Theorem missing_count_includes_errors (present : gset string) (df : DataFrame)
    (extraction_summary : string) (frame : StatusFrame)
    (recovered_count total_attempted missing_count : Z) (summary : string) :
  recovery_summary present df extraction_summary
  = inr (Reconciled frame recovered_count total_attempted missing_count summary) →
  missing_count
  = Z.of_nat (length (missing_files_of frame)) + count_status "Error" frame
  ∧ recovered_count + missing_count = Z.of_nat (length df)
  ∧ 0 ≤ recovered_count
  ∧ 0 ≤ missing_count.
Proof.
  intros Hsum.
  destruct (recovery_summary_shape _ _ _ _ _ _ _ _ Hsum) as (-> & -> & -> & ->).
  pose proof (status_partition present df) as Hpart. cbv zeta in Hpart.
  assert (Hlen : length (apply_recovery_status present df) = length df)
    by (unfold apply_recovery_status; apply List.length_map).
  unfold count_status in *. rewrite Hlen in *. repeat split; lia.
Qed.

Lemma missing_count_includes_errors_witness :
  recovery_summary (list_to_set ["IMG_0001.JPG"; "IMG_0003.JPG"]) mixed_photos
    EmptyString
  = inr (Reconciled
           [(photo "firearm" 60 "IMG_0001.JPG", "Recovered");
            (photo "firearm" 60 "IMG_0002.JPG", "Missing");
            (odd_photo, "Error")]
           1 3 2
           ("Missing files: IMG_0002.JPG" +:+ nl +:+ nl
            +:+ "EXTRACTION DETAILS" +:+ nl))
  ∧ 2 = Z.of_nat (length [PStr "IMG_0002.JPG"]) + 1.
Proof.
  assert (Hsum : recovery_summary (list_to_set ["IMG_0001.JPG"; "IMG_0003.JPG"])
                   mixed_photos EmptyString
                 = inr (Reconciled
                          [(photo "firearm" 60 "IMG_0001.JPG", "Recovered");
                           (photo "firearm" 60 "IMG_0002.JPG", "Missing");
                           (odd_photo, "Error")]
                          1 3 2
                          ("Missing files: IMG_0002.JPG" +:+ nl +:+ nl
                           +:+ "EXTRACTION DETAILS" +:+ nl)))
    by (vm_compute; reflexivity).
  split; [exact Hsum|].
  exact (proj1 (missing_count_includes_errors _ _ _ _ _ _ _ _ Hsum)).
Defined.

Lemma all_str_None (xs : list PyVal) :
  all_str xs = None ↔ forallb is_str xs = false.
Proof.
  induction xs as [|x xs IH]; cbn [all_str forallb]; [split; discriminate|].
  destruct x; cbn [is_str andb]; try (split; reflexivity).
  rewrite <- IH. destruct (all_str xs); cbn; split; congruence.
Qed.

Lemma missing_line_raises (xs : list PyVal) :
  (missing_line xs = inl TypeError ↔ forallb is_str (take 10 xs) = false)
  ∧ ∀ e, missing_line xs = inl e → e = TypeError.
Proof.
  unfold missing_line, py_join.
  destruct (Nat.leb_spec (length xs) 10) as [Hle|Hgt].
  - rewrite (firstn_all2 xs) by exact Hle. rewrite <- all_str_None.
    destruct (all_str xs); split; try split; try congruence; intros e [=]; congruence.
  - rewrite <- all_str_None.
    destruct (all_str (take 10 xs)); split; try split; try congruence;
      intros e [=]; congruence.
Qed.

(** X18. The report can raise one exception only, [TypeError], and it
    does so exactly when one of the first ten missing file names is not
    a [str] (a NULL file name is missing in any folder): a name that is
    not a [str] further down the list is never joined and does no harm. *)
Theorem recovery_summary_raises_iff (present : gset string) (df : DataFrame)
    (extraction_summary : string) :
  let frame := apply_recovery_status present df in
  (recovery_summary present df extraction_summary = inl TypeError
   ↔ forallb is_str (take 10 (missing_files_of frame)) = false)
  ∧ ∀ e, recovery_summary present df extraction_summary = inl e → e = TypeError.
Proof.
  cbv zeta. unfold recovery_summary.
  set (frame := apply_recovery_status present df).
  pose proof (status_partition present df) as Hpart. cbv zeta in Hpart.
  fold frame in Hpart.
  destruct (missing_line_raises (missing_files_of frame)) as [Hiff Honly].
  destruct (Z.ltb_spec 0 (Z.of_nat (length frame) - count_status "Recovered" frame))
    as [Hpos|Hzero].
  - destruct (missing_line (missing_files_of frame)) as [e|line] eqn:Hline.
    + split.
      * rewrite <- Hiff. split; congruence.
      * intros e' [= <-]. now apply Honly.
    + split; [|discriminate]. rewrite <- Hiff. split; discriminate.
  - assert (Hnone : missing_files_of frame = []).
    { unfold count_status in *.
      destruct (missing_files_of frame); [reflexivity | cbn [length] in Hpart; lia]. }
    rewrite Hnone. split; [split; discriminate | discriminate].
Qed.

Example recovery_summary_eleventh_name :
  (∃ r, recovery_summary ∅ eleven_photos EmptyString = inr r)
  ∧ recovery_summary ∅ (drop 1 eleven_photos) EmptyString = inl TypeError.
Proof. split; [eexists|]; vm_compute; reflexivity. Qed.

(** X19. Records that share a file name share their status, whatever
    else they hold, and the status does not change with the order of
    the folder listing or with names listed twice: only the set of
    listed names and the file name of the record count. *)
Theorem recovery_is_keyed_by_file_name (listing1 listing2 : list string)
    (df : DataFrame) :
  (∀ f, In f listing1 ↔ In f listing2) →
  apply_recovery_status (list_to_set listing1) df
  = apply_recovery_status (list_to_set listing2) df
  ∧ ∀ (r1 r2 : Row) (s1 s2 : string),
      In (r1, s1) (apply_recovery_status (list_to_set listing1) df) →
      In (r2, s2) (apply_recovery_status (list_to_set listing1) df) →
      Filename r1 = Filename r2 → s1 = s2.
Proof.
  intros Hsame.
  assert (Hset : (list_to_set listing1 : gset string) = list_to_set listing2).
  { apply set_eq. intros f. rewrite !elem_of_list_to_set, !list_elem_of_In.
    apply Hsame. }
  split; [now rewrite Hset|].
  intros r1 r2 s1 s2 [_ ->]%apply_recovery_status_In
    [_ ->]%apply_recovery_status_In Hname.
  unfold recovery_status. now rewrite Hname.
Qed.

Lemma recovery_is_keyed_by_file_name_witness :
  (∀ f, In f ["IMG_0003.JPG"; "IMG_0001.JPG"; "IMG_0003.JPG"]
        ↔ In f ["IMG_0001.JPG"; "IMG_0003.JPG"])
  ∧ apply_recovery_status
      (list_to_set ["IMG_0003.JPG"; "IMG_0001.JPG"; "IMG_0003.JPG"])
      [photo "firearm" 60 "IMG_0001.JPG"; photo "document" 90 "IMG_0001.JPG";
       photo "firearm" 60 "IMG_0002.JPG"]
    = [(photo "firearm" 60 "IMG_0001.JPG", "Recovered");
       (photo "document" 90 "IMG_0001.JPG", "Recovered");
       (photo "firearm" 60 "IMG_0002.JPG", "Missing")].
Proof.
  assert (Hsame : ∀ f, In f ["IMG_0003.JPG"; "IMG_0001.JPG"; "IMG_0003.JPG"]
                       ↔ In f ["IMG_0001.JPG"; "IMG_0003.JPG"])
    by (intros f; cbn; tauto).
  split; [exact Hsame|].
  rewrite (proj1 (recovery_is_keyed_by_file_name _ _ _ Hsame)).
  vm_compute. reflexivity.
Defined.

Lemma recovery_summary_reconciles (present : gset string) (df : DataFrame)
    (extraction_summary summary : string) :
  recovery_summary present df extraction_summary ≠ inr (NotReconciled summary).
Proof.
  unfold recovery_summary.
  destruct (0 <? _); [destruct (missing_line _)|]; discriminate.
Qed.

Section RecoveryBlockProperties.
Context {W : Type} {os : OsLib W} {report : ReportLib W} {tz : TimezoneLib}.
Variables (photo_report_csv : string) (device_info : device_info_items)
  (timezone : option string) (status_callback : bool).

(** Saving the report ends in an exception of the file system or in
    the reconciled frame. *)
Lemma save_photo_report_value (frame : StatusFrame)
    (recovered_count total_attempted missing_count : Z)
    (extraction_summary : string) (w : W) (summary : string) :
  value (save_photo_report photo_report_csv device_info timezone status_callback
           frame recovered_count total_attempted missing_count
           extraction_summary w)
  ≠ inr (NotReconciled summary).
Proof.
  unfold save_photo_report. rewrite and_then_run. cbv zeta.
  destruct (value (write _ _ w)) as [e|[]]; [discriminate|].
  rewrite value_triple, and_then_run. cbv zeta.
  destruct (value (to_csv _ _ _)) as [e|[]]; [discriminate|].
  rewrite value_triple, bind_run. cbv zeta. rewrite value_triple. discriminate.
Qed.

Lemma reconcile_and_report_value (dest : string) (df : DataFrame)
    (extraction_summary : string) (w : W) (summary : string) :
  value (reconcile_and_report photo_report_csv device_info timezone
           status_callback dest df extraction_summary w)
  ≠ inr (NotReconciled summary).
Proof.
  unfold reconcile_and_report. rewrite bind_run. cbv zeta.
  rewrite value_triple.
  destruct (recovery_summary _ df extraction_summary)
    as [e|[frame rc ta mc s|s]] eqn:Hsum.
  - discriminate.
  - apply save_photo_report_value.
  - now apply recovery_summary_reconciles in Hsum.
Qed.

(** X20. The block takes its [else] branch, where the summary ends
    with the line that no photos were extracted, exactly when there is
    no photo folder (none set, an empty path, or a path that does not
    exist) or no filtered frame; the folder is then not listed and
    nothing is written. *)
Theorem recovery_block_is_skipped_iff
    (photo_output_destination : option string) (filtered_df : option DataFrame)
    (extraction_summary : string) (w : W) :
  let x := recovery_block photo_report_csv device_info timezone status_callback
             photo_output_destination filtered_df extraction_summary w in
  ((∃ summary, value x = inr (NotReconciled summary))
   ↔ photo_output_destination = None
     ∨ photo_output_destination = Some EmptyString
     ∨ (∃ dest, photo_output_destination = Some dest
                ∧ os_path_exists dest w = false)
     ∨ filtered_df = None)
  ∧ (∀ summary, value x = inr (NotReconciled summary) →
       summary = extraction_summary +:+ no_photos_line
       ∧ List.filter is_listdir (events x) = []
       ∧ List.filter is_write (events x) = []).
Proof.
  cbv zeta. unfold recovery_block, mbind, M_bind, mret, M_ret, path_exists.
  destruct photo_output_destination as [[|a dest]|].
  - cbn. split.
    + split; [intros _; auto | intros _; eexists; reflexivity].
    + intros summary [= <-]. repeat split.
  - destruct (os_path_exists (String a dest) w) eqn:Hexists.
    + destruct filtered_df as [df|].
      * pose proof (reconcile_and_report_value (String a dest) df
                      extraction_summary w) as Hrec.
        destruct (reconcile_and_report photo_report_csv device_info timezone
                    status_callback (String a dest) df extraction_summary w)
          as [[b w2] l2].
        rewrite value_triple in Hrec |- *. split.
        -- split.
           ++ intros [summary Hsum]. now apply Hrec in Hsum.
           ++ intros [?|[?|[(d & [= <-] & Hd)|?]]]; congruence.
        -- intros summary Hsum. now apply Hrec in Hsum.
      * cbn. split.
        -- split; [intros _; auto | intros _; eexists; reflexivity].
        -- intros summary [= <-]. repeat split.
    + cbn. split.
      * split; [intros _; right; right; left; eauto
               | intros _; eexists; reflexivity].
      * intros summary [= <-]. repeat split.
  - cbn. split.
    + split; [intros _; auto | intros _; eexists; reflexivity].
    + intros summary [= <-]. repeat split.
Qed.
End RecoveryBlockProperties.

Example recovery_block_writes_the_report :
  let x := recovery_block (tz:=Scripted_timezone)
             "out/Reports/Photo_Report_firearm.csv"
             [("Device Name", "Ada's iPhone")] (Some "Europe/Paris") true
             (Some "out/Photos_firearm")
             (Some [photo "firearm" 60 "IMG_0001.JPG";
                    photo "firearm" 60 "IMG_0002.JPG"])
             EmptyString demo_world in
  List.filter is_write (events x)
  = [EvWrite "out/Reports/Photo_Report_firearm.csv"
       ("PHOTO ANALYSIS REPORT" +:+ nl +:+ nl +:+ "DEVICE INFORMATION" +:+ nl
        +:+ "Device Name: Ada's iPhone" +:+ nl +:+ nl
        +:+ "Missing files: IMG_0002.JPG" +:+ nl +:+ nl
        +:+ "EXTRACTION DETAILS" +:+ nl)
       (inr tt);
     EvToCsv "out/Reports/Photo_Report_firearm.csv"
       [({| Scene_Classification := SceneLabel "firearm"; Confidence := Some 60;
            Path := PStr "DCIM/100APPLE"; Filename := PStr "IMG_0001.JPG";
            Date_Created := "2024-01-01 00:00:00 UTC -> Europe/Paris";
            Date_Added := "2024-01-01 00:00:00 UTC -> Europe/Paris" |},
         "Recovered");
        ({| Scene_Classification := SceneLabel "firearm"; Confidence := Some 60;
            Path := PStr "DCIM/100APPLE"; Filename := PStr "IMG_0002.JPG";
            Date_Created := "2024-01-01 00:00:00 UTC -> Europe/Paris";
            Date_Added := "2024-01-01 00:00:00 UTC -> Europe/Paris" |},
         "Missing")]
       (inr tt)]
  ∧ written (world x)
    = ["out/Reports/Photo_Report_firearm.csv";
       "out/Reports/Photo_Report_firearm.csv"].
Proof. vm_compute. split; reflexivity. Qed.

(** ** The catalog filter, continued *)

(** X21. The filtered frame is a part of the catalog in the order of
    the catalog; filtering it again for the same target changes
    nothing, and filtering it for another target leaves nothing, since
    a row has one scene classification. *)
Theorem filter_taxonomy_is_stable (taxonomyquery : DataFrame)
    (taxonomy_target other_target : string) :
  sublist (filter_taxonomy taxonomyquery taxonomy_target) taxonomyquery
  ∧ filter_taxonomy (filter_taxonomy taxonomyquery taxonomy_target) taxonomy_target
    = filter_taxonomy taxonomyquery taxonomy_target
  ∧ (other_target ≠ taxonomy_target →
     filter_taxonomy (filter_taxonomy taxonomyquery taxonomy_target) other_target
     = []).
Proof.
  split; [apply filter_taxonomy_sublist|]. split; [apply filter_twice|].
  intros Hother. unfold filter_taxonomy.
  induction taxonomyquery as [|r l IH]; [reflexivity|].
  cbn [List.filter]. destruct (selected taxonomy_target r) eqn:Hsel; [|exact IH].
  cbn [List.filter]. destruct (selected other_target r) eqn:Hsel'; [|exact IH].
  apply selected_spec in Hsel as [Hs _]. apply selected_spec in Hsel' as [Hs' _].
  congruence.
Qed.

(** ** The text of a note *)

Example cleaned_content_cases :
  cleaned_content (pystr_of_string "<p>Hello&nbsp;world</p>") = pystr_of_string "Hello world"
  ∧ cleaned_content (pystr_of_string "a &nbsp; b") = pystr_of_string "a   b"
  ∧ cleaned_content (pystr_of_string "1 < 2 and 3 > 2") = pystr_of_string "1 2"
  ∧ cleaned_content (pystr_of_string "<>a>") = pystr_of_string "<>a>"
  ∧ cleaned_content (pystr_of_string "<<a>>") = pystr_of_string ">"
  ∧ cleaned_content (pystr_of_string "&a&b;;") = pystr_of_string "&a ;"
  ∧ cleaned_content (pystr_of_string "<br>") = []
  ∧ cleaned_content [32; 32; 120; 10; 9; 121; 32; 32] = pystr_of_string "x y"
  ∧ cleaned_content (pystr_of_string "&amp;lt;") = pystr_of_string "lt;"
  ∧ cleaned_content [60; 97; 10; 98; 62; 99] = pystr_of_string "c"
  ∧ cleaned_content (pystr_of_string "a<b") = pystr_of_string "a<b"
  ∧ cleaned_content (pystr_of_string "&;") = pystr_of_string "&;"
  ∧ cleaned_content (pystr_of_string "&1;") = pystr_of_string "&1;"
  ∧ cleaned_content (pystr_of_string "x&nbsp;") = pystr_of_string "x"
  ∧ cleaned_content [160; 120; 8195; 121; 12288] = pystr_of_string "x y"
  ∧ cleaned_content (pystr_of_string "<&gt;>") = []
  ∧ cleaned_content (pystr_of_string "& nbsp;") = pystr_of_string "& nbsp;"
  ∧ cleaned_content [28; 65; 133; 66; 8232] = pystr_of_string "A B"
  ∧ cleaned_content (pystr_of_string "a<b>c<d") = pystr_of_string "a c<d"
  ∧ cleaned_content (pystr_of_string "<a><>b<c>") = pystr_of_string "<>b"
  ∧ cleaned_content (pystr_of_string "&&amp;;") = pystr_of_string "& ;"
  ∧ cleaned_content [120; 32; 8203; 32; 121] = [120; 32; 8203; 32; 121]
  ∧ cleaned_content [116; 97; 98; 9; 104; 101; 114; 101] = pystr_of_string "tab here".
Proof. repeat split; vm_compute; reflexivity. Qed.

Example cleaned_row_cases :
  cleaned_row None = None
  ∧ cleaned_row (Some []) = None
  ∧ cleaned_row (Some (pystr_of_string "<br>")) = Some []
  ∧ cleaned_row (Some (pystr_of_string " ")) = Some [].
Proof. repeat split; vm_compute; reflexivity. Qed.

Lemma list_length_ind {A : Type} (P : list A → Prop) :
  (∀ s, (∀ t, (length t < length s)%nat → P t) → P s) → ∀ s, P s.
Proof.
  intros Hstep s.
  assert (Hall : ∀ n t, (length t < n)%nat → P t).
  { induction n as [|n IH]; intros t Ht; [lia|].
    apply Hstep. intros u Hu. apply IH. lia. }
  apply (Hall (S (length s))). lia.
Qed.

Lemma sub_from_skip (p : pattern) (repl : pystr) (k : nat) (s : pystr) :
  sub_from p repl k s = re_sub p repl (drop k s).
Proof.
  revert k. induction s as [|c s IH]; intros [|k]; try reflexivity.
  cbn [sub_from drop]. apply IH.
Qed.

(** The two ways of [re.sub] at a character. *)
Lemma re_sub_cons (p : pattern) (repl : pystr) (c : Z) (s : pystr) :
  (∃ n, match_len p (c :: s) = Some (S n)
        ∧ re_sub p repl (c :: s) = repl ++ re_sub p repl (drop n s))
  ∨ ((∀ n, match_len p (c :: s) ≠ Some (S n))
     ∧ re_sub p repl (c :: s) = c :: re_sub p repl s).
Proof.
  unfold re_sub at 1 3. cbn [sub_from].
  destruct (match_len p (c :: s)) as [[|n]|].
  - right. split; [discriminate | reflexivity].
  - left. exists n. split; [reflexivity|]. now rewrite sub_from_skip.
  - right. split; [discriminate | reflexivity].
Qed.

Lemma re_sub_no_match (p : pattern) (repl : pystr) (c : Z) (s : pystr) :
  match_len p (c :: s) = None →
  re_sub p repl (c :: s) = c :: re_sub p repl s.
Proof.
  intros Hm. destruct (re_sub_cons p repl c s) as [(n & Hn & _)|[_ Heq]];
    [congruence | exact Heq].
Qed.

Lemma match_len_more (cls : Z → bool) (rest : pattern) (c : Z) (s : pystr) :
  match_len ((cls, OneOrMore) :: rest) (c :: s)
  = if cls c
    then match match_len ((cls, OneOrMore) :: rest) s with
         | Some n => Some (S n)
         | None => S <$> match_len rest s
         end
    else None.
Proof. reflexivity. Qed.

Lemma match_len_once (cls : Z → bool) (rest : pattern) (c : Z) (s : pystr) :
  match_len ((cls, Once) :: rest) (c :: s)
  = if cls c then S <$> match_len rest s else None.
Proof. reflexivity. Qed.

(** A match on a text is a match on any text that goes on. *)
Lemma match_len_extend (p : pattern) (s w : pystr) :
  is_Some (match_len p s) → is_Some (match_len p (s ++ w)).
Proof.
  revert s. induction p as [|[cls []] rest IHp]; intros s.
  - intros _. now exists O.
  - destruct s as [|c s]; [intros [n Hn]; discriminate|].
    cbn [app]. rewrite !match_len_once. destruct (cls c); [|exact id].
    rewrite !fmap_is_Some. apply IHp.
  - induction s as [|c s IHs]; [intros [n Hn]; discriminate|].
    cbn [app]. rewrite !match_len_more. destruct (cls c); [|exact id].
    destruct (match_len ((cls, OneOrMore) :: rest) s) as [n|].
    + intros _. destruct IHs as [m ->]; [now exists n | now exists (S m)].
    + intros Hrest. rewrite fmap_is_Some in Hrest. apply (IHp s) in Hrest.
      destruct (match_len ((cls, OneOrMore) :: rest) (s ++ w)) as [m|];
        [now exists (S m) | now rewrite fmap_is_Some].
Qed.

(** What [re.sub] writes is a character of the text or the space of
    the replacement. *)
Lemma re_sub_elem (p : pattern) (s : pystr) (x : Z) :
  In x (re_sub p [32] s) → In x s ∨ x = 32.
Proof.
  revert x. induction s as [s IH] using list_length_ind. intros x.
  destruct s as [|c s]; [intros []|].
  destruct (re_sub_cons p [32] c s) as [(n & _ & ->)|[_ ->]].
  - intros [<-|Hin]; [now right|].
    apply IH in Hin; [|cbn; rewrite length_drop; lia].
    destruct Hin as [Hin|Hin]; [|now right]. left. right.
    rewrite <- (take_drop n s). apply in_or_app. now right.
  - intros [<-|Hin]; [left; now left|].
    apply IH in Hin; [|cbn; lia].
    destruct Hin as [Hin|Hin]; [left; now right | now right].
Qed.

(** A character of the result that is no space is the character read. *)
Lemma re_sub_head (p : pattern) (s : pystr) (x : Z) (t : pystr) :
  x ≠ 32 → re_sub p [32] s = x :: t →
  ∃ s', s = x :: s' ∧ re_sub p [32] s' = t
        ∧ ∀ n, match_len p s ≠ Some (S n).
Proof.
  intros Hx. destruct s as [|c s]; [discriminate|].
  destruct (re_sub_cons p [32] c s) as [(n & _ & ->)|[Hno ->]].
  - intros [= <- _]. congruence.
  - intros [= <- <-]. now exists s.
Qed.

(** *** Patterns between two marks *)

Section Delimited.
Variables (a b : Z) (cls : Z → bool).
Hypothesis cls_b : cls b = false.

Lemma body_match_intro (body rest : pystr) :
  body ≠ [] → forallb cls body = true →
  match_len [(cls, OneOrMore); (is_char b, Once)] (body ++ b :: rest)
  = Some (S (length body)).
Proof.
  induction body as [|c body IH]; [congruence|]. intros _ Hall.
  cbn [forallb] in Hall. apply andb_true_iff in Hall as [Hc Hall].
  cbn [app]. rewrite match_len_more, Hc.
  destruct body as [|d body].
  - cbn [app]. rewrite match_len_more, cls_b. rewrite match_len_once.
    unfold is_char. now rewrite Z.eqb_refl.
  - now rewrite IH.
Qed.

Lemma body_match_elim (s : pystr) (n : nat) :
  match_len [(cls, OneOrMore); (is_char b, Once)] s = Some n →
  ∃ body rest, s = body ++ b :: rest ∧ body ≠ []
               ∧ forallb cls body = true ∧ n = S (length body).
Proof.
  revert n. induction s as [|c s IH]; intros n; [discriminate|].
  rewrite match_len_more. destruct (cls c) eqn:Hc; [|discriminate].
  destruct (match_len [(cls, OneOrMore); (is_char b, Once)] s) as [m|].
  - intros [= <-].
    destruct (IH m eq_refl) as (body & rest & -> & _ & Hall & ->).
    exists (c :: body), rest. cbn [forallb]. rewrite Hc, Hall.
    repeat split. discriminate.
  - destruct s as [|d s]; [discriminate|]. rewrite match_len_once.
    unfold is_char. destruct (Z.eqb_spec d b) as [->|]; [|discriminate].
    intros [= <-]. exists [c], s. cbn [forallb]. rewrite Hc.
    repeat split. discriminate.
Qed.

Lemma delimited_match_intro (body rest : pystr) :
  body ≠ [] → forallb cls body = true →
  match_len [(is_char a, Once); (cls, OneOrMore); (is_char b, Once)]
    (a :: body ++ b :: rest)
  = Some (S (S (length body))).
Proof.
  intros Hne Hall. rewrite match_len_once. unfold is_char at 1.
  rewrite Z.eqb_refl. now rewrite body_match_intro.
Qed.

Lemma delimited_match_elim (s : pystr) (n : nat) :
  match_len [(is_char a, Once); (cls, OneOrMore); (is_char b, Once)] s = Some n →
  ∃ body rest, s = a :: body ++ b :: rest ∧ body ≠ []
               ∧ forallb cls body = true ∧ n = S (S (length body)).
Proof.
  destruct s as [|c s]; [discriminate|]. rewrite match_len_once.
  unfold is_char at 1. destruct (Z.eqb_spec c a) as [->|]; [|discriminate].
  destruct (match_len [(cls, OneOrMore); (is_char b, Once)] s) as [m|] eqn:Hm;
    [|discriminate].
  intros [= <-]. apply body_match_elim in Hm as (body & rest & -> & Hne & Hall & ->).
  now exists body, rest.
Qed.
End Delimited.

(** *** Texts where a pattern matches nowhere *)

Lemma no_match_nil (p : pattern) : match_len p [] = None → no_match p [].
Proof.
  intros Hnil pre suf Heq. symmetry in Heq.
  apply app_eq_nil in Heq as [_ ->]. exact Hnil.
Qed.

Lemma no_match_cons (p : pattern) (c : Z) (s : pystr) :
  match_len p [] = None → match_len p (c :: s) = None → no_match p s →
  no_match p (c :: s).
Proof.
  intros Hnil Hhere Hrest [|d pre] suf Heq; cbn [app] in Heq.
  - now subst suf.
  - injection Heq as _ Heq. exact (Hrest pre suf Heq).
Qed.

Lemma no_match_suffix (p : pattern) (x y : pystr) :
  no_match p (x ++ y) → no_match p y.
Proof.
  intros Hno pre suf ->. apply (Hno (x ++ pre) suf). now rewrite app_assoc.
Qed.

Lemma no_match_prefix (p : pattern) (x y : pystr) :
  no_match p (x ++ y) → no_match p x.
Proof.
  intros Hno pre suf ->.
  destruct (match_len p suf) as [n|] eqn:Hm; [|reflexivity].
  destruct (match_len_extend p suf y) as [m Hm']; [now exists n|].
  rewrite (Hno pre (suf ++ y)) in Hm'; [discriminate | now rewrite app_assoc].
Qed.

Lemma forallb_not_char (x : Z) (s : pystr) :
  forallb (not_char x) s = true ↔ ¬ In x s.
Proof.
  induction s as [|c s IH]; cbn [forallb In]; [tauto|].
  rewrite andb_true_iff, IH. unfold not_char.
  destruct (Z.eqb_spec c x); cbn; intuition congruence.
Qed.

(** A text splits at the first place of a character it holds. *)
Lemma in_split_first (x : Z) (s : pystr) :
  In x s → ∃ s1 s2, s = s1 ++ x :: s2 ∧ ¬ In x s1.
Proof.
  induction s as [|c s IH]; [intros []|].
  destruct (Z.eq_dec c x) as [->|Hne].
  - intros _. exists [], s. split; [reflexivity | intros []].
  - intros [Heq|Hin]; [congruence|].
    destruct (IH Hin) as (s1 & s2 & -> & Hnot).
    exists (c :: s1), s2. split; [reflexivity|]. intros [Heq|Hin']; tauto.
Qed.

(** After a substitution that leaves [>] in its place, no tag is found
    where none was found before, the places of the substitution apart. *)
Lemma no_tag_after_sub (p : pattern) :
  (∀ t, match_len p (62 :: t) = None) →
  ∀ r,
    (∀ pre suf, r = pre ++ suf → (∀ n, match_len p suf ≠ Some (S n)) →
                match_len tag_pattern suf = None) →
    no_match tag_pattern (re_sub p [32] r).
Proof.
  intros Hgt r. induction r as [r IH] using list_length_ind. intros Hr.
  destruct r as [|c r]; [now apply no_match_nil|].
  destruct (re_sub_cons p [32] c r) as [(n & _ & ->)|[Hno ->]].
  - apply no_match_cons; [reflexivity | reflexivity |].
    apply IH; [cbn; rewrite length_drop; lia|].
    intros pre suf Heq. apply (Hr (c :: take n r ++ pre) suf).
    cbn [app]. now rewrite <- app_assoc, <- Heq, take_drop.
  - apply no_match_cons; [reflexivity | |].
    + destruct (match_len tag_pattern (c :: re_sub p [32] r)) as [m|] eqn:Hm;
        [exfalso | reflexivity].
      apply delimited_match_elim in Hm as (body & rest & Heq & Hne & Hall & _).
      injection Heq as -> Hsub.
      pose proof (Hr [] (60 :: r) eq_refl Hno) as Hhere.
      assert (Hin : In 62 r).
      { destruct (re_sub_elem p r 62) as [Hin|Habs]; [|exact Hin | discriminate].
        rewrite Hsub. apply in_or_app. right. now left. }
      apply in_split_first in Hin as (body' & rest' & -> & Hnot).
      destruct body' as [|d body'].
      * cbn [app] in Hsub. rewrite (re_sub_no_match _ _ _ _ (Hgt rest')) in Hsub.
        destruct body as [|e body]; [congruence|]. injection Hsub as <- _.
        discriminate.
      * unfold tag_pattern in Hhere.
        rewrite (delimited_match_intro 60 62 (not_char 62) eq_refl (d :: body') rest')
          in Hhere; [discriminate | discriminate |].
        now apply forallb_not_char.
    + apply IH; [cbn; lia|].
      intros pre suf Heq. apply (Hr (c :: pre) suf). cbn [app]. now rewrite Heq.
Qed.

Lemma re_sub_letters (p : pattern) (letters : pystr) (s t : pystr) :
  forallb is_ascii_letter letters = true →
  re_sub p [32] s = letters ++ t →
  ∃ s', s = letters ++ s' ∧ re_sub p [32] s' = t.
Proof.
  revert s. induction letters as [|l letters IH]; intros s Hall Hsub.
  - now exists s.
  - cbn [forallb] in Hall. apply andb_true_iff in Hall as [Hl Hall].
    cbn [app] in Hsub. apply re_sub_head in Hsub as (s' & -> & Hsub & _).
    + destruct (IH s' Hall Hsub) as (s'' & -> & Hsub'). now exists s''.
    + intros ->. discriminate.
Qed.

(** After the entities are replaced, no entity is left. *)
Lemma no_entity_after_sub (s : pystr) :
  no_match entity_pattern (re_sub entity_pattern [32] s).
Proof.
  induction s as [s IH] using list_length_ind.
  destruct s as [|c s]; [now apply no_match_nil|].
  destruct (re_sub_cons entity_pattern [32] c s) as [(n & _ & ->)|[Hno ->]].
  - apply no_match_cons; [reflexivity | reflexivity |].
    apply IH. cbn. rewrite length_drop. lia.
  - apply no_match_cons; [reflexivity | | apply IH; cbn; lia].
    destruct (match_len entity_pattern (c :: re_sub entity_pattern [32] s))
      as [m|] eqn:Hm; [exfalso | reflexivity].
    apply delimited_match_elim in Hm as (letters & rest & Heq & Hne & Hall & _).
    injection Heq as -> Hsub.
    apply re_sub_letters in Hsub as (s' & -> & Hsub); [|exact Hall].
    apply re_sub_head in Hsub as (s'' & -> & _); [|discriminate].
    apply (Hno (S (length letters))).
    now apply (delimited_match_intro 38 59 is_ascii_letter eq_refl).
Qed.

(** *** Stripping *)

Lemma lstrip_suffix (s : pystr) :
  ∃ w, s = w ++ lstrip s ∧ forallb is_space w = true.
Proof.
  induction s as [|c s (w & Hs & Hw)]; [now exists []|].
  cbn [lstrip]. destruct (is_space c) eqn:Hc.
  - exists (c :: w). cbn [app forallb]. rewrite Hc, Hw. now rewrite <- Hs.
  - now exists [].
Qed.

Lemma strip_middle (s : pystr) :
  ∃ w1 w2, s = w1 ++ strip s ++ w2
           ∧ forallb is_space w1 = true ∧ forallb is_space w2 = true.
Proof.
  unfold strip. destruct (lstrip_suffix s) as (w1 & Hs & Hw1).
  destruct (lstrip_suffix (rev (lstrip s))) as (w2 & Hr & Hw2).
  exists w1, (rev w2). split; [|split; [exact Hw1|]].
  - rewrite <- rev_app_distr, <- Hr, rev_involutive. exact Hs.
  - rewrite forallb_forall in *. intros x Hx. apply Hw2. now apply in_rev.
Qed.

Lemma lstrip_head (s : pystr) (c : Z) :
  head (lstrip s) = Some c → is_space c = false.
Proof.
  induction s as [|d s IH]; [discriminate|]. cbn [lstrip].
  destruct (is_space d) eqn:Hd; [exact IH|]. now intros [= <-].
Qed.

Lemma last_rev (s : pystr) : last (rev s) = head s.
Proof. destruct s as [|c s]; [reflexivity|]. cbn [rev]. apply last_snoc. Qed.

Lemma head_rev (s : pystr) : head (rev s) = last s.
Proof. rewrite <- (rev_involutive s) at 2. now rewrite last_rev. Qed.

Lemma last_suffix (x y : pystr) (c : Z) :
  last y = Some c → last (x ++ y) = Some c.
Proof.
  intros Hy. destruct y as [|d y]; [discriminate|].
  rewrite last_app. now rewrite Hy.
Qed.

Lemma strip_ends (s : pystr) (c : Z) :
  head (strip s) = Some c ∨ last (strip s) = Some c → is_space c = false.
Proof.
  unfold strip. rewrite head_rev, last_rev. intros [Hlast|Hhead].
  - destruct (lstrip_suffix (rev (lstrip s))) as (w & Hr & _).
    apply (last_suffix w) in Hlast. rewrite <- Hr, last_rev in Hlast.
    now apply lstrip_head in Hlast.
  - now apply lstrip_head in Hhead.
Qed.

Lemma lstrip_id (s : pystr) :
  (∀ c, head s = Some c → is_space c = false) → lstrip s = s.
Proof.
  destruct s as [|c s]; [reflexivity|]. intros Hc. cbn [lstrip].
  now rewrite (Hc c eq_refl).
Qed.

Lemma strip_id (s : pystr) :
  (∀ c, head s = Some c → is_space c = false) →
  (∀ c, last s = Some c → is_space c = false) →
  strip s = s.
Proof.
  intros Hhead Hlast. unfold strip. rewrite (lstrip_id s Hhead).
  rewrite lstrip_id; [apply rev_involutive|].
  intros c. rewrite head_rev. apply Hlast.
Qed.

(** *** The cleaned text *)

Lemma cleaned_content_no_markup (content : pystr) :
  no_match tag_pattern (cleaned_content content)
  ∧ no_match entity_pattern (cleaned_content content).
Proof.
  unfold cleaned_content. cbv zeta.
  set (r1 := re_sub tag_pattern [32] content).
  set (r2 := re_sub space_pattern [32] r1).
  set (r3 := re_sub entity_pattern [32] r2).
  assert (H1 : no_match tag_pattern r1).
  { apply no_tag_after_sub; [reflexivity|].
    intros pre suf _ Hno.
    destruct (match_len tag_pattern suf) as [[|n]|] eqn:Hm; [| |reflexivity].
    - apply delimited_match_elim in Hm as (? & ? & _ & _ & _ & ?). discriminate.
    - now destruct (Hno n). }
  assert (H2 : no_match tag_pattern r2).
  { apply no_tag_after_sub; [reflexivity|].
    intros pre suf Heq _. exact (H1 pre suf Heq). }
  assert (H3 : no_match tag_pattern r3).
  { apply no_tag_after_sub; [reflexivity|].
    intros pre suf Heq _. exact (H2 pre suf Heq). }
  pose proof (no_entity_after_sub r2) as H4. fold r3 in H4.
  destruct (strip_middle r3) as (w1 & w2 & Heq & _).
  rewrite Heq in H3, H4. split.
  - exact (no_match_prefix _ _ _ (no_match_suffix _ _ _ H3)).
  - exact (no_match_prefix _ _ _ (no_match_suffix _ _ _ H4)).
Qed.

(** X22. No mark-up is left in a cleaned note: [sqlite_run_notes]
    returns one row per note, and in the text of a row neither the tag
    pattern nor the entity pattern matches anywhere, although the
    entities are replaced after the tags and the text is stripped
    afterwards. *)
Theorem notes_keep_no_markup (results : list (option pystr)) :
  length (cleaned_results results) = length results
  ∧ ∀ (n : nat) (text : pystr),
      cleaned_results results !! n = Some (Some text) →
      no_match tag_pattern text ∧ no_match entity_pattern text.
Proof.
  change (cleaned_results results) with (cleaned_row <$> results).
  split; [apply length_fmap|]. intros n text.
  rewrite list_lookup_fmap. destruct (results !! n) as [content|]; [|discriminate].
  cbn. destruct content as [[|c s]|]; try discriminate.
  intros [= <-]. apply cleaned_content_no_markup.
Qed.

Lemma space_sub_spaces (s : pystr) (c : Z) :
  In c (re_sub space_pattern [32] s) → is_space c = true → c = 32.
Proof.
  induction s as [s IH] using list_length_ind.
  destruct s as [|d s]; [intros []|].
  destruct (re_sub_cons space_pattern [32] d s) as [(n & _ & ->)|[Hno ->]].
  - intros [<-|Hin]; [reflexivity|]. apply (IH (drop n s)); [|exact Hin].
    cbn. rewrite length_drop. lia.
  - intros [<-|Hin]; [|apply (IH s); [cbn; lia | exact Hin]].
    intros Hd. exfalso. unfold space_pattern in Hno.
    rewrite match_len_more, Hd in Hno.
    destruct (match_len [(is_space, OneOrMore)] s) as [m|];
      [now apply (Hno m) | now apply (Hno O)].
Qed.

(** X23. The white space of a cleaned note is plain: whatever the
    content, every white-space character of the cleaned text is the
    space U+0020 (no line break, tab or no-break space is left), and
    the text neither begins nor ends with white space. *)
Theorem cleaned_content_whitespace (content : pystr) :
  (∀ c, In c (cleaned_content content) → is_space c = true → c = 32)
  ∧ (∀ c, head (cleaned_content content) = Some c
          ∨ last (cleaned_content content) = Some c →
          is_space c = false).
Proof.
  split; [|intros c; apply strip_ends].
  unfold cleaned_content. cbv zeta. intros c Hin Hc.
  destruct (strip_middle
              (re_sub entity_pattern [32]
                 (re_sub space_pattern [32] (re_sub tag_pattern [32] content))))
    as (w1 & w2 & Heq & _).
  assert (Hin' : In c (re_sub entity_pattern [32]
                         (re_sub space_pattern [32]
                            (re_sub tag_pattern [32] content)))).
  { rewrite Heq. apply in_or_app. right. apply in_or_app. now left. }
  apply re_sub_elem in Hin' as [Hin'|Heq']; [|exact Heq'].
  now apply space_sub_spaces in Hin'.
Qed.

Lemma re_sub_no_start (a : Z) (rest : pattern) (repl s : pystr) :
  ¬ In a s → re_sub ((is_char a, Once) :: rest) repl s = s.
Proof.
  induction s as [|c s IH]; [reflexivity|]. intros Hnot.
  rewrite re_sub_no_match.
  - rewrite IH; [reflexivity|]. intros Hin. apply Hnot. now right.
  - rewrite match_len_once. unfold is_char.
    destruct (Z.eqb_spec c a) as [->|]; [|reflexivity].
    destruct Hnot. now left.
Qed.

Lemma re_sub_space_id (s : pystr) :
  (∀ c, In c s → is_space c = true → c = 32) →
  single_spaced s = true →
  re_sub space_pattern [32] s = s.
Proof.
  induction s as [|c s IH]; [reflexivity|]. intros Hsp Hsingle.
  cbn [single_spaced] in Hsingle. apply andb_true_iff in Hsingle as [Hc Hsingle].
  assert (IH' : re_sub space_pattern [32] s = s).
  { apply IH; [|exact Hsingle]. intros d Hd. apply Hsp. now right. }
  destruct (re_sub_cons space_pattern [32] c s) as [(n & Hm & ->)|[_ ->]];
    [|now rewrite IH'].
  unfold space_pattern in Hm. rewrite match_len_more in Hm.
  destruct (is_space c) eqn:Hspace; [|discriminate].
  rewrite (Hsp c (or_introl eq_refl) Hspace) in *.
  assert (Hnext : match_len [(is_space, OneOrMore)] s = None).
  { destruct s as [|d s]; [reflexivity|]. rewrite match_len_more.
    cbn in Hc. now destruct (is_space d). }
  rewrite Hnext in Hm. injection Hm as <-.
  change (drop 0 s) with s. now rewrite IH'.
Qed.

(** X24. A text that needs no cleaning comes back as it is: when the
    content holds no [<] and no [&], its only white space is the space
    U+0020, never twice in a row and neither first nor last, the
    cleaned text is the content. *)
Theorem cleaned_content_keeps_plain_text (content : pystr) :
  (∀ c, In c content → c ≠ 60 ∧ c ≠ 38 ∧ (is_space c = true → c = 32)) →
  single_spaced content = true →
  (∀ c, head content = Some c ∨ last content = Some c → is_space c = false) →
  cleaned_content content = content.
Proof.
  intros Hchars Hsingle Hends. unfold cleaned_content. cbv zeta.
  unfold tag_pattern. rewrite re_sub_no_start;
    [|intros Hin; now destruct (Hchars 60 Hin) as [? _]].
  rewrite re_sub_space_id; [|intros c Hc; now apply Hchars | exact Hsingle].
  unfold entity_pattern. rewrite re_sub_no_start;
    [|intros Hin; now destruct (Hchars 38 Hin) as (_ & ? & _)].
  apply strip_id; intros c Hc; apply Hends; auto.
Qed.

Lemma cleaned_content_keeps_plain_text_witness :
  cleaned_content (pystr_of_string "Milk, eggs; 2 > 1")
  = pystr_of_string "Milk, eggs; 2 > 1".
Proof.
  apply cleaned_content_keeps_plain_text.
  - intros c Hc. vm_compute in Hc.
    repeat (destruct Hc as [<-|Hc]; [repeat split; (discriminate || (intros _; reflexivity))|]).
    destruct Hc.
  - reflexivity.
  - intros c [Hc|Hc]; vm_compute in Hc; injection Hc as <-; reflexivity.
Defined.

Lemma re_sub_app_no_start (a : Z) (rest : pattern) (repl pre s : pystr) :
  ¬ In a pre →
  re_sub ((is_char a, Once) :: rest) repl (pre ++ s)
  = pre ++ re_sub ((is_char a, Once) :: rest) repl s.
Proof.
  induction pre as [|c pre IH]; [reflexivity|]. intros Hnot.
  cbn [app]. rewrite re_sub_no_match.
  - rewrite IH; [reflexivity|]. intros Hin. apply Hnot. now right.
  - rewrite match_len_once. unfold is_char.
    destruct (Z.eqb_spec c a) as [->|]; [|reflexivity].
    destruct Hnot. now left.
Qed.

(** X25. What stands between a [<] and the next [>] is taken for a
    tag, mark-up or not: when no [<] comes before it, the text from
    the [<] to the first [>] after it, if there is a character between
    the two, is cleaned as one space would be, so its characters are
    lost. *)
Theorem angle_brackets_clean_as_a_space (pre body post : pystr) :
  ¬ In 60 pre → body ≠ [] → ¬ In 62 body →
  cleaned_content (pre ++ 60 :: body ++ 62 :: post)
  = cleaned_content (pre ++ 32 :: post).
Proof.
  intros Hpre Hbody Hgt. unfold cleaned_content. cbv zeta. do 3 f_equal.
  unfold tag_pattern. rewrite !re_sub_app_no_start by exact Hpre. f_equal.
  rewrite (re_sub_no_match _ _ 32 post) by reflexivity.
  destruct (re_sub_cons
              [(is_char 60, Once); (not_char 62, OneOrMore); (is_char 62, Once)]
              [32] 60 (body ++ 62 :: post)) as [(n & Hm & ->)|[Hno _]].
  - rewrite (delimited_match_intro 60 62 (not_char 62) eq_refl body post Hbody)
      in Hm by now apply forallb_not_char.
    injection Hm as <-. cbn [app]. do 2 f_equal.
    rewrite (app_assoc body [62] post) at 1.
    rewrite drop_app_length'; [reflexivity|]. rewrite length_app. cbn. lia.
  - destruct (Hno (S (length body))).
    apply (delimited_match_intro 60 62 (not_char 62) eq_refl body post Hbody).
    now apply forallb_not_char.
Qed.

Lemma angle_brackets_clean_as_a_space_witness :
  cleaned_content (pystr_of_string "1 < 2 and 3 > 2") = pystr_of_string "1 2".
Proof.
  etransitivity.
  - apply (angle_brackets_clean_as_a_space
             (pystr_of_string "1 ") (pystr_of_string " 2 and 3 ")
             (pystr_of_string " 2")).
    + vm_compute. intuition discriminate.
    + discriminate.
    + vm_compute. intuition discriminate.
  - vm_compute. reflexivity.
Defined.
